(** * cihai: Unihan look-up over a relational store

  A shallow embedding of [cihai/bootstrap.py] and
  [cihai/datasets/unihan.py].  Python text is held as a UTF-8 [string];
  dictionaries that are mutated in place live in an explicit heap;
  SQLAlchemy's schema objects and the SQLite store behind
  [metadata.bind] are modelled in [sqlalchemy]. *)

From Stdlib Require Import ZArith NArith Ascii String List Lia Bool.
From stdpp Require Import base option gmap strings list sorting fin_maps.

Local Open Scope string_scope.
Local Open Scope list_scope.
Set Warnings "-clear-no-such-hyp".

(** ** Python [str] *)

Module pystr.

(** Code points of a UTF-8 byte sequence (ill-formed tails are kept byte
    by byte). *)
Fixpoint utf8_decode (bs : list N) : list N :=
  match bs with
  | [] => []
  | b0 :: r0 =>
    if (b0 <? 128)%N then b0 :: utf8_decode r0
    else
      match r0 with
      | [] => [b0]
      | b1 :: r1 =>
        if (b0 <? 224)%N
        then N.lor (N.shiftl (N.land b0 31) 6) (N.land b1 63) :: utf8_decode r1
        else
          match r1 with
          | [] => [b0; b1]
          | b2 :: r2 =>
            if (b0 <? 240)%N
            then N.lor (N.shiftl (N.land b0 15) 12)
                   (N.lor (N.shiftl (N.land b1 63) 6) (N.land b2 63))
                 :: utf8_decode r2
            else
              match r2 with
              | [] => [b0; b1; b2]
              | b3 :: r3 =>
                N.lor (N.shiftl (N.land b0 7) 18)
                  (N.lor (N.shiftl (N.land b1 63) 12)
                     (N.lor (N.shiftl (N.land b2 63) 6) (N.land b3 63)))
                :: utf8_decode r3
              end
          end
      end
  end.

Definition utf8_encode (c : N) : list N :=
  if (c <? 128)%N then [c]
  else if (c <? 2048)%N then
    [N.lor 192 (N.shiftr c 6); N.lor 128 (N.land c 63)]
  else if (c <? 65536)%N then
    [N.lor 224 (N.shiftr c 12); N.lor 128 (N.land (N.shiftr c 6) 63);
     N.lor 128 (N.land c 63)]
  else
    [N.lor 240 (N.shiftr c 18); N.lor 128 (N.land (N.shiftr c 12) 63);
     N.lor 128 (N.land (N.shiftr c 6) 63); N.lor 128 (N.land c 63)].

Definition codepoints (s : string) : list N :=
  utf8_decode (map N_of_ascii (list_ascii_of_string s)).

Definition of_codepoints (cs : list N) : string :=
  string_of_list_ascii (map ascii_of_N (concat (map utf8_encode cs))).

(** [s.startswith(p)] *)
Definition startswith (s p : string) : bool := String.prefix p s.

(** [str.isspace] on one code point. *)
Definition isspace (c : N) : bool :=
  ((9 <=? c) && (c <=? 13) || (28 <=? c) && (c <=? 32)
   || (c =? 133) || (c =? 160) || (c =? 5760)
   || (8192 <=? c) && (c <=? 8202)
   || (c =? 8232) || (c =? 8233) || (c =? 8239) || (c =? 8287)
   || (c =? 12288))%N.

Fixpoint lstrip_cp (cs : list N) : list N :=
  match cs with
  | c :: r => if isspace c then lstrip_cp r else cs
  | [] => []
  end.

(** [s.strip()] *)
Definition strip (s : string) : string :=
  of_codepoints (rev (lstrip_cp (rev (lstrip_cp (codepoints s))))).

(** [s.split(sep)] for a one-character separator: never the empty list. *)
Fixpoint split (sep : ascii) (s : string) : list string :=
  match s with
  | EmptyString => [EmptyString]
  | String c r =>
    if Ascii.eqb c sep then EmptyString :: split sep r
    else
      match split sep r with
      | h :: t => String c h :: t
      | [] => [String c EmptyString]
      end
  end.

Definition tab : ascii := ascii_of_N 9.
Definition newline : string := String (ascii_of_N 10) EmptyString.
Definition hash : ascii := "#"%char.

(** [zip(keys, values)] stops at the shorter list. *)
Fixpoint zip {A B} (xs : list A) (ys : list B) : list (A * B) :=
  match xs, ys with
  | x :: xs', y :: ys' => (x, y) :: zip xs' ys'
  | _, _ => []
  end.

End pystr.

(** ** Exceptions *)

Inductive exn :=
| KeyError | TypeError | AttributeError | IndexError | UnboundLocalError
| IOError | SystemError
| IntegrityError | OperationalError | InterfaceError
| MalformedTagError | UnknownFieldError.

Inductive res (A : Type) :=
| Ok (a : A)
| Raise (e : exn).
Arguments Ok {A} a.
Arguments Raise {A} e.

(** ** [cihai.conversion] *)

Module conversion.

Definition hex_digit (d : N) : ascii :=
  if (d <? 10)%N then ascii_of_N (48 + d) else ascii_of_N (55 + d).

Fixpoint hex_digits (fuel : nat) (n : N) (acc : string) : string :=
  match fuel with
  | O => acc
  | S f =>
    let acc' := String (hex_digit (n mod 16)) acc in
    if (n / 16 =? 0)%N then acc' else hex_digits f (n / 16) acc'
  end.

Definition hex (n : N) : string := hex_digits (S (N.to_nat (N.log2 n))) n "".

Definition zfill (width : nat) (s : string) : string :=
  match width - String.length s with
  | O => s
  | S k => String.append (string_of_list_ascii (repeat "0"%char (S k))) s
  end.

(** Modelled from the spec: [conversion.py] is not part of the sources.
    [to_code_point_tag(char)]: the code point as ["U+"] followed by
    uppercase hexadecimal digits, zero-padded to at least four. *)
Definition to_code_point_tag (c : N) : string := "U+" ++ zfill 4 (hex c).

Definition hex_value (c : ascii) : option N :=
  let n := N_of_ascii c in
  if ((48 <=? n) && (n <=? 57))%N then Some (n - 48)%N
  else if ((65 <=? n) && (n <=? 70))%N then Some (n - 55)%N
  else None.

Fixpoint parse_hex (s : string) (acc : N) : option N :=
  match s with
  | EmptyString => Some acc
  | String c r =>
    match hex_value c with
    | Some d => parse_hex r (16 * acc + d)%N
    | None => None
    end
  end.

(** Modelled from the spec: [from_code_point_tag(tag)], the inverse; [None]
    stands for [MalformedTagError], raised when the tag does not match
    [U+[0-9A-F]+]. *)
Definition from_code_point_tag (tag : string) : option N :=
  match tag with
  | String "U" (String "+" (String c r)) => parse_hex (String c r) 0
  | _ => None
  end.

(** Modelled from the spec: [python_to_ucn] is [to_code_point_tag] on a
    one-character string; the spec gives it no other argument, and such
    text is handed back as it is. *)
Definition python_to_ucn (uni_char : string) : string :=
  match pystr.codepoints uni_char with
  | [c] => to_code_point_tag c
  | _ => uni_char
  end.

(** Modelled from the spec: [ucn_to_unicode] is [from_code_point_tag],
    giving the character as text. *)
Definition ucn_to_unicode (ucn : string) : res string :=
  match from_code_point_tag ucn with
  | Some cp => Ok (pystr.of_codepoints [cp])
  | None => Raise MalformedTagError
  end.

End conversion.

(** ** SQLAlchemy schema objects and the store behind [metadata.bind] *)

Module sqlalchemy.

Inductive coltype := Integer | String_ (length : nat).

Record Column := mkColumn
  { c_name : string; c_type : coltype; c_primary_key : bool; c_nullable : bool }.

(** [Column(name, type_)], [Column(name, type_, nullable=True)] *)
Definition Column_ (name : string) (type_ : coltype) : Column :=
  mkColumn name type_ false true.
(** [Column(name, type_, primary_key=True)]: key columns are NOT NULL. *)
Definition Column_pk (name : string) (type_ : coltype) : Column :=
  mkColumn name type_ true false.

Record Index := mkIndex
  { i_name : string; i_columns : list string; i_unique : bool }.

Record Table := mkTable
  { t_name : string; t_columns : list Column; t_indexes : list Index }.

(** [metadata.tables] *)
Abbreviation MetaData := (gmap string Table).

(** [Table(name, metadata)] without columns: the table registered under
    [name], registering an empty one first when there is none.  A table is
    one object per name and metadata, so its name is its handle. *)
Definition Table_ (name : string) (metadata : MetaData) : MetaData :=
  match metadata !! name with
  | Some _ => metadata
  | None => <[name := mkTable name [] []]> metadata
  end.

Definition has_column (name : string) (t : Table) : bool :=
  existsb (λ c, String.eqb (c_name c) name) (t_columns t).

Fixpoint replace_column (col : Column) (cs : list Column) : list Column :=
  match cs with
  | [] => []
  | c :: r =>
    if String.eqb (c_name c) (c_name col) then col :: r
    else c :: replace_column col r
  end.

(** [table.append_column(col)]: a column of the same name is replaced. *)
Definition append_column (col : Column) (t : Table) : Table :=
  if has_column (c_name col) t
  then mkTable (t_name t) (replace_column col (t_columns t)) (t_indexes t)
  else mkTable (t_name t) (t_columns t ++ [col]) (t_indexes t).

(** [table.c.<name>]: [AttributeError] when there is no such column. *)
Definition c (t : Table) (name : string) : res string :=
  if has_column name t then Ok name else Raise AttributeError.

Fixpoint columns_c (t : Table) (names : list string) : res (list string) :=
  match names with
  | [] => Ok []
  | n :: r =>
    match c t n with
    | Raise e => Raise e
    | Ok n' =>
      match columns_c t r with
      | Raise e => Raise e
      | Ok r' => Ok (n' :: r')
      end
    end
  end.

(** [Index(name, table.c.a, table.c.b, ..., unique=u)] attaches the index
    to the table of its columns. *)
Definition Index_ (name : string) (cols : list string) (unique : bool)
    (t : Table) : res Table :=
  match columns_c t cols with
  | Raise e => Raise e
  | Ok cs => Ok (mkTable (t_name t) (t_columns t) (t_indexes t ++ [mkIndex name cs unique]))
  end.

(** *** The store: SQLite *)

Inductive sqlval := SInt (n : Z) | SText (s : string).

#[global] Instance sqlval_eq_dec : EqDecision sqlval.
Proof. solve_decision. Defined.

(** A row maps column names to values; an absent column is NULL. *)
Abbreviation Row := (gmap string sqlval).

Record Relation := mkRelation { schema : Table; rows : list Row }.

Abbreviation Database := (gmap string Relation).

(** [metadata.create_all()] (checkfirst): creates the tables, with their
    indexes, that the store does not have yet and leaves the others. *)
Definition create_all (metadata : MetaData) (db : Database) : Database :=
  db ∪ ((λ t, mkRelation t []) <$> metadata).

(** Two rows collide on [cols] when they agree there on non-NULL values
    (NULLs are distinct in a uniqueness index). *)
Definition agree (cols : list string) (r1 r2 : Row) : bool :=
  forallb (λ k,
    match r1 !! k, r2 !! k with
    | Some a, Some b => bool_decide (a = b)
    | _, _ => false
    end) cols.

Definition primary_key (t : Table) : list Column :=
  filter (λ col, c_primary_key col = true) (t_columns t).

Definition rowid (r : Row) (k : string) : Z :=
  match r !! k with Some (SInt n) => n | _ => 0 end.

Definition next_rowid (k : string) (rs : list Row) : Z :=
  (1 + foldr (λ r m, Z.max (rowid r k) m) 0 rs)%Z.

(** A single INTEGER key column left out of the record gets the next
    row id. *)
Definition autoincrement (rel : Relation) (record : Row) : Row :=
  match primary_key (schema rel) with
  | [mkColumn k Integer _ _] =>
    match record !! k with
    | None => <[k := SInt (next_rowid k (rows rel))]> record
    | Some _ => record
    end
  | _ => record
  end.

Definition not_null_ok (t : Table) (r : Row) : bool :=
  forallb (λ col, c_nullable col || bool_decide (is_Some (r !! c_name col)))
    (t_columns t).

Definition known_columns (t : Table) (r : Row) : bool :=
  forallb (λ k, has_column k t) (map fst (map_to_list r)).

Definition unique_ok (t : Table) (rs : list Row) (r : Row) : bool :=
  negb (existsb (agree (map c_name (primary_key t)) r) rs)
  && forallb (λ i, negb (i_unique i) || negb (existsb (agree (i_columns i) r) rs))
       (t_indexes t).

(** One INSERT. *)
Definition insert_row (rel : Relation) (record : Row) : res Relation :=
  if negb (known_columns (schema rel) record) then Raise OperationalError
  else
    let r := autoincrement rel record in
    if not_null_ok (schema rel) r && unique_ok (schema rel) (rows rel) r
    then Ok (mkRelation (schema rel) (rows rel ++ [r]))
    else Raise IntegrityError.

Fixpoint insert_rows (rel : Relation) (data : list Row) : res Relation :=
  match data with
  | [] => Ok rel
  | record :: rest =>
    match insert_row rel record with
    | Ok rel' => insert_rows rel' rest
    | Raise e => Raise e
    end
  end.

(** [bind.execute(table.insert(), data)]: one INSERT per record inside
    one transaction; a failure rolls the statement back and is raised. *)
Definition execute_insert (table : string) (data : list Row) (db : Database)
    : res unit * Database :=
  match db !! table with
  | None => (Raise OperationalError, db)
  | Some rel =>
    match insert_rows rel data with
    | Ok rel' => (Ok (), <[table := rel']> db)
    | Raise e => (Raise e, db)
    end
  end.

(** *** Expressions: three-valued logic *)

Definition sql_eq (a b : option sqlval) : option bool :=
  match a, b with
  | Some x, Some y => Some (bool_decide (x = y))
  | _, _ => None
  end.

Definition sql_and (a b : option bool) : option bool :=
  match a, b with
  | Some false, _ | _, Some false => Some false
  | Some true, Some true => Some true
  | _, _ => None
  end.

Definition sql_or (a b : option bool) : option bool :=
  match a, b with
  | Some true, _ | _, Some true => Some true
  | Some false, Some false => Some false
  | _, _ => None
  end.

(** [and_] and [or_] over a list of clauses; no clause at all constrains
    nothing. *)
Definition and_ (clauses : list (Row → option bool)) : Row → option bool :=
  λ r, foldr (λ cl acc, sql_and (cl r) acc) (Some true) clauses.
Definition or_ (clauses : list (Row → option bool)) : Row → option bool :=
  match clauses with
  | [] => λ _, Some true
  | _ => λ r, foldr (λ cl acc, sql_or (cl r) acc) (Some false) clauses
  end.

Definition fold_case (ch : N) : N :=
  if ((97 <=? ch) && (ch <=? 122))%N then (ch - 32)%N else ch.

(** LIKE: [%] any run of characters, [_] any one character, anything
    else itself, ASCII letters without regard to case. *)
Fixpoint like_cp (p : list N) : list N → bool :=
  match p with
  | [] => λ s, match s with [] => true | _ => false end
  | ch :: p' =>
    if (ch =? 37)%N then
      fix star (s : list N) : bool :=
        like_cp p' s || match s with [] => false | _ :: s' => star s' end
    else λ s,
      match s with
      | [] => false
      | x :: s' => ((ch =? 95) || (fold_case ch =? fold_case x))%N && like_cp p' s'
      end
  end.

Definition sql_like (a : option sqlval) (pattern : string) : option bool :=
  match a with
  | Some (SText s) => Some (like_cp (pystr.codepoints pattern) (pystr.codepoints s))
  | Some (SInt _) => Some false
  | None => None
  end.

(** WHERE keeps the rows on which the condition is true. *)
Definition where_ (cond : Row → option bool) (rs : list Row) : list Row :=
  filter (λ r, cond r = Some true) rs.

(** A SELECT used as a value: its first row, NULL when it has none. *)
Definition as_scalar (column : list (option sqlval)) : option sqlval :=
  match column with
  | v :: _ => v
  | [] => None
  end.

(** The rows of [table] for a statement naming [columns]:
    [OperationalError] when the store lacks the table or a column. *)
Definition from_ (table : string) (columns : list string) (db : Database)
    : res (list Row) :=
  match db !! table with
  | None => Raise OperationalError
  | Some rel =>
    if forallb (λ k, has_column k (schema rel)) columns
    then Ok (rows rel) else Raise OperationalError
  end.

End sqlalchemy.

(** ** Python objects: values, dictionaries on a heap, and the world *)

Definition loc := positive.

Inductive val :=
| VNone
| VInt (n : Z)
| VStr (s : string)
| VDict (l : loc).

#[global] Instance val_eq_dec : EqDecision val.
Proof. solve_decision. Defined.

Definition val_to_sum (v : val) : unit + Z + string + loc :=
  match v with
  | VNone => inl (inl (inl ()))
  | VInt n => inl (inl (inr n))
  | VStr s => inl (inr s)
  | VDict l => inr l
  end.

Definition val_of_sum (x : unit + Z + string + loc) : val :=
  match x with
  | inl (inl (inl _)) => VNone
  | inl (inl (inr n)) => VInt n
  | inl (inr s) => VStr s
  | inr l => VDict l
  end.

#[global] Instance val_countable : Countable val.
Proof. apply (inj_countable' val_to_sum val_of_sum). by intros []. Defined.

Coercion VStr : string >-> val.

(** What the program runs in: the dictionaries it can reach, the
    metadata's tables and the store the metadata is bound to. *)
Record world := mkWorld
  { heap : gmap loc (gmap val val);
    metadata : gmap string sqlalchemy.Table;
    engine : gmap string sqlalchemy.Relation }.

Definition M (A : Type) : Type := world → res A * world.

#[global] Instance M_ret : MRet M := λ A a w, (Ok a, w).
#[global] Instance M_bind : MBind M := λ A B f m w,
  match m w with
  | (Ok a, w') => f a w'
  | (Raise e, w') => (Raise e, w')
  end.

Definition raise {A} (e : exn) : M A := λ w, (Raise e, w).
Definition lift {A} (r : res A) : M A := λ w, (r, w).

(** [for x in xs: body] *)
Fixpoint for_ {A} (xs : list A) (body : A → M unit) : M unit :=
  match xs with
  | [] => mret ()
  | x :: r => body x ≫= λ _, for_ r body
  end.

Definition set_heap (h : gmap loc (gmap val val)) (w : world) : world :=
  mkWorld h (metadata w) (engine w).
Definition set_metadata (md : gmap string sqlalchemy.Table) (w : world) : world :=
  mkWorld (heap w) md (engine w).
Definition set_engine (db : gmap string sqlalchemy.Relation) (w : world) : world :=
  mkWorld (heap w) (metadata w) db.

(** [{}]: a new, empty dictionary object. *)
Definition new_dict : M val := λ w,
  let l := fresh (dom (heap w)) in
  (Ok (VDict l), set_heap (<[l := ∅]> (heap w)) w).

(** The dictionary a value refers to; indexing anything else is a
    [TypeError]. *)
Definition deref (d : val) : M (loc * gmap val val) := λ w,
  match d with
  | VDict l =>
    match heap w !! l with
    | Some m => (Ok (l, m), w)
    | None => (Raise SystemError, w)
    end
  | _ => (Raise TypeError, w)
  end.

Definition hashable (k : val) : bool :=
  match k with VDict _ => false | _ => true end.

(** [k in d] *)
Definition contains (k d : val) : M bool :=
  '(_, m) ← deref d;
  if hashable k then mret (bool_decide (is_Some (m !! k))) else raise TypeError.

(** [d[k]] *)
Definition getitem (d k : val) : M val :=
  '(_, m) ← deref d;
  if hashable k then
    match m !! k with
    | Some v => mret v
    | None => raise KeyError
    end
  else raise TypeError.

(** The dictionary at [l] becomes [m]. *)
Definition store_dict (l : loc) (m : gmap val val) : M unit := λ w,
  (Ok (), set_heap (<[l := m]> (heap w)) w).

(** [d[k] = v] *)
Definition setitem (d k v : val) : M unit :=
  '(l, m) ← deref d;
  if hashable k then store_dict l (<[k := v]> m) else raise TypeError.

(** [del d[k]] *)
Definition delitem (d k : val) : M unit :=
  '(l, m) ← deref d;
  if hashable k then
    match m !! k with
    | Some _ => store_dict l (delete k m)
    | None => raise KeyError
    end
  else raise TypeError.

(** [bool(v)] *)
Definition truth (v : val) : M bool :=
  match v with
  | VNone => mret false
  | VInt n => mret (negb (n =? 0)%Z)
  | VStr s => mret (negb (String.eqb s ""))
  | VDict _ => '(_, m) ← deref v; mret (negb (bool_decide (m = ∅)))
  end.

(** A result row as Python sees it: [r['column']]. *)
Definition row_item (r : sqlalchemy.Row) (column : string) : val :=
  match r !! column with
  | None => VNone
  | Some (sqlalchemy.SInt n) => VInt n
  | Some (sqlalchemy.SText s) => VStr s
  end.

(** A [ResultProxy] has neither [__bool__] nor [__len__]: it is always
    true. *)
Definition ResultProxy_bool (query : list sqlalchemy.Row) : bool := true.

(** ** Statements built and run in the world *)

(** What a bind parameter holds. *)
Inductive param :=
| PStr (s : string)
| PSeq (l : list string).

Coercion PStr : string >-> param.

Definition is_seq (p : param) : bool :=
  match p with PSeq _ => true | PStr _ => false end.

(** [column == parameter] *)
Definition eq_param (a : option sqlalchemy.sqlval) (p : param) : option bool :=
  match p with
  | PStr s => sqlalchemy.sql_eq a (Some (sqlalchemy.SText s))
  | PSeq _ => None
  end.

Module W.

(** [Table(name, self.metadata)] *)
Definition Table (name : string) : M string := λ w,
  (Ok name, set_metadata (sqlalchemy.Table_ name (metadata w)) w).

(** [table.c.<name>] *)
Definition c (table name : string) : M string := λ w,
  match metadata w !! table with
  | Some t => (sqlalchemy.c t name, w)
  | None => (Raise SystemError, w)
  end.

(** The table object changes in place. *)
Definition modify_table (table : string)
    (f : sqlalchemy.Table → res sqlalchemy.Table) : M unit := λ w,
  match metadata w !! table with
  | Some t =>
    match f t with
    | Ok t' => (Ok (), set_metadata (<[table := t']> (metadata w)) w)
    | Raise e => (Raise e, w)
    end
  | None => (Raise SystemError, w)
  end.

Definition append_column (table : string) (col : sqlalchemy.Column) : M unit :=
  modify_table table (λ t, Ok (sqlalchemy.append_column col t)).

Definition Index (name table : string) (cols : list string) (unique : bool) : M unit :=
  modify_table table (sqlalchemy.Index_ name cols unique).

(** [self.metadata.create_all()] *)
Definition create_all : M unit := λ w,
  (Ok (), set_engine (sqlalchemy.create_all (metadata w) (engine w)) w).

(** [select(columns)...execute()]: the statement is prepared against the
    store, then its parameters are bound (a list cannot be bound), then it
    runs over the rows of the table. *)
Definition execute (table : string) (columns : list string) (params : list param)
    (stmt : list sqlalchemy.Row → list sqlalchemy.Row) : M (list sqlalchemy.Row) := λ w,
  match sqlalchemy.from_ table columns (engine w) with
  | Raise e => (Raise e, w)
  | Ok rs => if existsb is_seq params then (Raise InterfaceError, w) else (Ok (stmt rs), w)
  end.

(** [self.metadata.bind.execute(table.insert(), data)] *)
Definition execute_insert (table : string) (data : list sqlalchemy.Row) : M unit := λ w,
  let '(r, db) := sqlalchemy.execute_insert table data (engine w) in
  (r, set_engine db w).

(** The columns a SELECT returns. *)
Definition project (columns : list string) (r : sqlalchemy.Row) : sqlalchemy.Row :=
  filter (λ kv, kv.1 ∈ columns) r.

End W.

(** ** [cihai/bootstrap.py] *)

Module bootstrap.
Import sqlalchemy.

Definition str_le (a b : string) : Prop := String.leb a b = true.

#[global] Instance str_le_dec : RelDecision str_le.
Proof. intros a b. unfold str_le. apply _. Defined.

(** [sorted(xs)] on text *)
Definition sorted (xs : list string) : list string := merge_sort str_le xs.

Definition TABLE_NAME : string := "Unihan".

Definition flatten_datasets (d : list (string * list string)) : list string :=
  sorted (remove_dups (concat (map snd d))).

Definition DEFAULT_COLUMNS : list string := ["ucn"; "char"].

Section manifest.

(** [unihan_tabular.process.UNIHAN_MANIFEST], a dictionary of another
    package: data file name to the fields it holds. *)
Variable UNIHAN_MANIFEST : list (string * list string).

Definition DEFAULT_FIELDS : list (list string) :=
  map snd (filter (λ tf, tf.1 ∈ ["Unihan"]) UNIHAN_MANIFEST).

(** [not install_dict] *)
Definition falsy {A} (d : option (list A)) : bool :=
  match d with
  | None | Some [] => true
  | Some (_ :: _) => false
  end.

Definition is_bootstrapped (metadata : MetaData)
    (install_dict : option (list (string * list string))) : bool :=
  let install_dict :=
    if falsy install_dict then UNIHAN_MANIFEST else default [] install_dict in
  let columns := flatten_datasets install_dict ++ DEFAULT_COLUMNS in
  match metadata !! TABLE_NAME with
  | Some table =>
    if bool_decide (list_to_set columns =@{gset string}
                    list_to_set (map c_name (t_columns table)))
    then true else false
  | None => false
  end.

(** The tables are one object per name: the handle returned is the name,
    next to the metadata as the call leaves it. *)
Definition create_table (columns : list string) (metadata : MetaData)
    : res (string * MetaData) :=
  match metadata !! TABLE_NAME with
  | None =>
    let table := mkTable TABLE_NAME [] [] in
    let table := sqlalchemy.append_column (Column_pk "char" (String_ 12)) table in
    let table := sqlalchemy.append_column (Column_pk "ucn" (String_ 12)) table in
    let table :=
      foldl (λ t column_name,
               sqlalchemy.append_column (Column_ column_name (String_ 256)) t)
        table columns in
    match Index_ (TABLE_NAME ++ "_unique_char") ["char"] true table with
    | Raise e => Raise e
    | Ok table =>
      match Index_ (TABLE_NAME ++ "_unique_char_ucn") ["char"; "ucn"] true table with
      | Raise e => Raise e
      | Ok table => Ok (TABLE_NAME, <[TABLE_NAME := table]> metadata)
      end
    end
  | Some _ => Ok (TABLE_NAME, Table_ TABLE_NAME metadata)
  end.

(** The statement of [get] over the rows of the table. *)
Definition get_statement (field value char_ : string) (fields : list param)
    (char : string) (rs : list Row) : list Row :=
  let andfields := map (λ t (r : Row), eq_param (r !! field) t) fields in
  let andstmt := and_ andfields in
  let q := map (λ r : Row, r !! field) (where_ andstmt rs) in
  W.project [value; char_; field] <$>
    where_ (λ r, sql_eq (r !! value) (Some (SText char)))
      (where_ (λ r, sql_eq (r !! field) (as_scalar q)) rs).

Definition get (char : string) (kwargs_fields : option (list param)) : M val :=
  let char := if negb (pystr.startswith char "U+")
              then conversion.python_to_ucn char else char in
  let fields := match kwargs_fields with
                | None => map PSeq DEFAULT_FIELDS
                | Some fs => fs
                end in
  table ← W.Table "Unihan";
  field ← W.c table "field";
  value ← W.c table "value";
  char_ ← W.c table "char";
  query ← W.execute table [field; value; char_] (fields ++ [PStr char])
    (get_statement field value char_ fields char);
  if ResultProxy_bool query then
    response ← new_dict;
    for_ query (λ r, setitem response (row_item r "field") (row_item r "value"));;
    mret response
  else raise UnboundLocalError.

End manifest.

End bootstrap.

(** ** [cihai/datasets/unihan.py] *)

Module datasets_unihan.
Import sqlalchemy.

Definition UNIHAN_DATASETS : list (string * list string) :=
  [ ("Unihan_DictionaryIndices.txt",
     ["kCheungBauerIndex"; "kCowles"; "kDaeJaweon"; "kFennIndex"; "kGSR";
      "kHanYu"; "kIRGDaeJaweon"; "kIRGDaiKanwaZiten"; "kIRGHanyuDaZidian";
      "kIRGKangXi"; "kKangXi"; "kKarlgren"; "kLau"; "kMatthews";
      "kMeyerWempe"; "kMorohashi"; "kNelson"; "kSBGY"]);
    ("Unihan_DictionaryLikeData.txt",
     ["kCangjie"; "kCheungBauer"; "kCihaiT"; "kFenn"; "kFourCornerCode";
      "kFrequency"; "kGradeLevel"; "kHDZRadBreak"; "kHKGlyph"; "kPhonetic";
      "kTotalStrokes"]);
    ("Unihan_IRGSources.txt",
     ["kIICore"; "kIRG_GSource"; "kIRG_HSource"; "kIRG_JSource";
      "kIRG_KPSource"; "kIRG_KSource"; "kIRG_MSource"; "kIRG_TSource";
      "kIRG_USource"; "kIRG_VSource"]);
    ("Unihan_NumericValues.txt",
     ["kAccountingNumeric"; "kOtherNumeric"; "kPrimaryNumeric"]);
    ("Unihan_OtherMappings.txt",
     ["kBigFive"; "kCCCII"; "kCNS1986"; "kCNS1992"; "kEACC"; "kGB0"; "kGB1";
      "kGB3"; "kGB5"; "kGB7"; "kGB8"; "kHKSCS"; "kIBMJapan"; "kJis0"; "kJis1";
      "kJIS0213"; "kKPS0"; "kKPS1"; "kKSC0"; "kKSC1"; "kMainlandTelegraph";
      "kPseudoGB1"; "kTaiwanTelegraph"; "kXerox"]);
    ("Unihan_RadicalStrokeCounts.txt",
     ["kRSAdobe_Japan1_6"; "kRSJapanese"; "kRSKangXi"; "kRSKanWa";
      "kRSKorean"; "kRSUnicode"]);
    ("Unihan_Readings.txt",
     ["kCantonese"; "kDefinition"; "kHangul"; "kHanyuPinlu"; "kHanyuPinyin";
      "kJapaneseKun"; "kJapaneseOn"; "kKorean"; "kMandarin"; "kTang";
      "kVietnamese"; "kXHC1983"]);
    ("Unihan_Variants.txt",
     ["kCompatibilityVariant"; "kSemanticVariant"; "kSimplifiedVariant";
      "kSpecializedSemanticVariant"; "kTraditionalVariant"; "kZVariant"]) ].

(** [Unihan.__init__]: [self.fields], also [self.default_fields]; the
    comprehension cannot raise, so its [except] branch is never taken. *)
Definition fields : list (list string) :=
  map snd (filter (λ tf, tf.1 ∈ ["Unihan"]) UNIHAN_DATASETS).

Definition default_fields : list (list string) := fields.

(** The record of one data line: [dict(zip(keys, l.strip().split('\t')))]. *)
Definition record (keys : list string) (l : string) : Row :=
  list_to_map (pystr.zip keys (SText <$> pystr.split pystr.tab (pystr.strip l))).

(** The condition of the comprehension, [l[0] != '#' and l != '\n'];
    [l[0]] is an [IndexError] on empty text. *)
Definition kept (l : string) : res bool :=
  match l with
  | EmptyString => Raise IndexError
  | String l0 _ => Ok (negb (Ascii.eqb l0 pystr.hash) && negb (String.eqb l pystr.newline))
  end.

Fixpoint comprehension (keys : list string) (combine : list string) : res (list Row) :=
  match combine with
  | [] => Ok []
  | l :: rest =>
    match kept l with
    | Raise e => Raise e
    | Ok k =>
      match comprehension keys rest with
      | Raise e => Raise e
      | Ok ds => Ok (if k then record keys l :: ds else ds)
      end
    end
  end.

Section files.

(** The lines of the data file that [get_datafile(f)] names, each with its
    line end, as [fileinput] hands them over; [None] when the file cannot
    be opened.  [cihai.util] and the files are not part of the sources. *)
Variable get_datafile : string → option (list string).

(** [fileinput.FileInput(files=csv_files, ...)]: the files as one stream. *)
Fixpoint FileInput (csv_files : list string) : res (list string) :=
  match csv_files with
  | [] => Ok []
  | f :: rest =>
    match get_datafile f with
    | None => Raise IOError
    | Some ls =>
      match FileInput rest with
      | Raise e => Raise e
      | Ok ls' => Ok (ls ++ ls')
      end
    end
  end.

Definition csv_to_dictlists (keys : list string) (csv_files : list string)
    : res (list Row) :=
  match FileInput csv_files with
  | Raise e => Raise e
  | Ok combine => comprehension keys combine
  end.

Definition _create_table (table_name : string) : M string :=
  table ← W.Table table_name;
  let fields := [("char", String_ 12); ("field", String_ 36); ("value", String_ 256)] in
  let col := Column_pk "id" Integer in
  W.append_column table col;;
  for_ fields (λ ft, W.append_column table (Column_ ft.1 ft.2));;
  W.Index (table_name ++ "_unique_char_field_value") table ["char"; "field"; "value"] true;;
  W.Index (table_name ++ "_unique_char_field") table ["char"; "field"] true;;
  W.Index (table_name ++ "_field") table ["field"] false;;
  W.create_all;;
  mret table.

(** The clauses [insert_rows] builds from [fields] go unused. *)
Definition insert_rows (table : string) (data : list Row) (fields : list param) : M unit :=
  field ← (match fields with [] => mret "field" | _ => W.c table "field" end);
  let andfields := map (λ t (r : Row), eq_param (r !! field) t) fields in
  let andstmt := or_ andfields in
  W.execute_insert table data.

Definition install (install_dict : option (list (string * list string))) : M string :=
  let install_dict :=
    if bootstrap.falsy install_dict then UNIHAN_DATASETS else default [] install_dict in
  let table_name := "Unihan" in
  let files := map fst install_dict in
  let keys := ["char"; "field"; "value"] in
  data ← lift (csv_to_dictlists keys files);
  table ← _create_table table_name;
  insert_rows table data (map PSeq fields);;
  mret table.

End files.

(** The statement of [get] over the rows of the table. *)
Definition get_statement (field value char_ : string) (fields : list param)
    (request : string) (rs : list Row) : list Row :=
  let andfields := map (λ t (r : Row), eq_param (r !! field) t) fields in
  let andstmt := and_ andfields in
  let q := map (λ r : Row, r !! field) (where_ andstmt rs) in
  W.project [value; char_; field] <$>
    where_ (λ r, sql_eq (r !! value) (Some (SText request)))
      (where_ (λ r, sql_eq (r !! field) (as_scalar q)) rs).

Definition get (request : string) (response : val) (kwargs_fields : option (list param))
    : M val :=
  let request := if negb (pystr.startswith request "U+")
                 then conversion.python_to_ucn request else request in
  let fields := match kwargs_fields with
                | None => map PSeq default_fields
                | Some fs => fs
                end in
  table ← W.Table "Unihan";
  field ← W.c table "field";
  value ← W.c table "value";
  char_ ← W.c table "char";
  query ← W.execute table [field; value; char_] (fields ++ [PStr request])
    (get_statement field value char_ fields request);
  (if ResultProxy_bool query then
     has ← contains "unihan" response;
     (if negb has then
        d ← new_dict; setitem response "unihan" d
      else mret ());;
     for_ query (λ r,
       unihan ← getitem response "unihan";
       setitem unihan (row_item r "field") (row_item r "value"))
   else mret ());;
  unihan ← getitem response "unihan";
  t ← truth unihan;
  (if negb t then delitem response "unihan" else mret ());;
  mret response.

(** The statement of [reverse] over the rows of the table. *)
Definition reverse_statement (field value char_ : string) (fields : list param)
    (request : string) (rs : list Row) : list Row :=
  let andfields := map (λ t (r : Row), eq_param (r !! field) t) fields in
  let andstmt := and_ andfields in
  let q := map (λ r : Row, r !! field) (where_ andstmt rs) in
  W.project [value; char_; field] <$>
    where_ (λ r, sql_like (r !! value) request)
      (where_ (λ r, sql_eq (r !! field) (as_scalar q)) rs).

(** [conversion.ucn_to_unicode(r['char'])] *)
Definition ucn_to_unicode (v : val) : M val :=
  match v with
  | VStr s =>
    match conversion.ucn_to_unicode s with
    | Ok ch => mret (VStr ch)
    | Raise e => raise e
    end
  | _ => raise TypeError
  end.

Definition reverse (request : string) (response : val) (kwargs_fields : option (list param))
    : M val :=
  let fields := match kwargs_fields with
                | None => map PSeq default_fields
                | Some fs => fs
                end in
  table ← W.Table "Unihan";
  field ← W.c table "field";
  value ← W.c table "value";
  char_ ← W.c table "char";
  query ← W.execute table [field; value; char_] (fields ++ [PStr request])
    (reverse_statement field value char_ fields request);
  (if ResultProxy_bool query then
     has ← contains "unihan" response;
     (if negb has then
        d ← new_dict; setitem response "unihan" d
      else mret ());;
     for_ query (λ r,
       char ← ucn_to_unicode (row_item r "char");
       unihan ← getitem response "unihan";
       has ← contains char unihan;
       (if negb has then
          d ← new_dict;
          unihan ← getitem response "unihan";
          setitem unihan char d
        else mret ());;
       unihan ← getitem response "unihan";
       entry ← getitem unihan char;
       setitem entry (row_item r "field") (row_item r "value"))
   else mret ());;
  unihan ← getitem response "unihan";
  t ← truth unihan;
  (if negb t then delitem response "unihan" else mret ());;
  mret response.

End datasets_unihan.

(** ** Notions the statements use *)

(** The states of a stored table reached by INSERTs from its creation. *)
Inductive reachable (t : sqlalchemy.Table) : sqlalchemy.Relation → Prop :=
| reachable_created : reachable t (sqlalchemy.mkRelation t [])
| reachable_insert rel record rel' :
    reachable t rel →
    sqlalchemy.insert_row rel record = Ok rel' →
    reachable t rel'.

(** The columns the look-up statements name. *)
Definition long_format (t : sqlalchemy.Table) : bool :=
  sqlalchemy.has_column "field" t && sqlalchemy.has_column "value" t
  && sqlalchemy.has_column "char" t.

(** The metadata and the store both hold a [Unihan] table with these
    columns, as after [install]. *)
Definition installed (w : world) : Prop :=
  ∃ t rel,
    metadata w !! "Unihan" = Some t ∧ long_format t = true
    ∧ engine w !! "Unihan" = Some rel ∧ long_format (sqlalchemy.schema rel) = true.

Definition stored_rows (w : world) : list sqlalchemy.Row :=
  match engine w !! "Unihan" with
  | Some rel => sqlalchemy.rows rel
  | None => []
  end.

(** The request as [get] looks it up. *)
Definition normalized (request : string) : string :=
  if negb (pystr.startswith request "U+") then conversion.python_to_ucn request
  else request.

(** The [fields] keyword holding a list of field names, or left out. *)
Definition field_filter (fields : option (list string)) : option (list param) :=
  match fields with
  | Some names => Some (map PStr names)
  | None => None
  end.

(** The filter [get] and [reverse] work with. *)
Definition active_filter (fields : option (list string)) : list param :=
  match field_filter fields with
  | None => map PSeq datasets_unihan.default_fields
  | Some fs => fs
  end.

(** The rows [get]'s statement selects in a world. *)
Definition get_query (w : world) (request : string) (fields : option (list string))
    : list sqlalchemy.Row :=
  datasets_unihan.get_statement "field" "value" "char" (active_filter fields)
    (normalized request) (stored_rows w).

(** The nested mapping after the loop of [get] over the selected rows. *)
Definition fill (query : list sqlalchemy.Row) (m : gmap val val) : gmap val val :=
  foldl (λ m r, <[row_item r "field" := row_item r "value"]> m) m query.

(** The [unihan] entry of a response [d] at [l]: missing, or a dictionary
    other than the response itself, holding [m0]. *)
Definition nested (h : gmap loc (gmap val val)) (l : loc) (d m0 : gmap val val) : Prop :=
  (d !! VStr "unihan" = None ∧ m0 = ∅)
  ∨ (∃ u, d !! VStr "unihan" = Some (VDict u) ∧ u ≠ l ∧ h !! u = Some m0).

(** A line that [install] does not import: the blank line, or a comment. *)
Definition skipped (l : string) : Prop :=
  l = pystr.newline ∨ pystr.startswith l "#" = true.


(** The table object once [_create_table] has declared its columns and
    indexes on it. *)
Definition declared (table_name : string) (t : sqlalchemy.Table) : sqlalchemy.Table :=
  let t := sqlalchemy.append_column (sqlalchemy.Column_pk "id" sqlalchemy.Integer) t in
  let t := sqlalchemy.append_column (sqlalchemy.Column_ "char" (sqlalchemy.String_ 12)) t in
  let t := sqlalchemy.append_column (sqlalchemy.Column_ "field" (sqlalchemy.String_ 36)) t in
  let t := sqlalchemy.append_column (sqlalchemy.Column_ "value" (sqlalchemy.String_ 256)) t in
  sqlalchemy.mkTable (sqlalchemy.t_name t) (sqlalchemy.t_columns t)
    (sqlalchemy.t_indexes t ++
     [sqlalchemy.mkIndex (table_name ++ "_unique_char_field_value")
        ["char"; "field"; "value"] true;
      sqlalchemy.mkIndex (table_name ++ "_unique_char_field") ["char"; "field"] true;
      sqlalchemy.mkIndex (table_name ++ "_field") ["field"] false]).

(** The table a name stands for in the metadata, as [Table(name, metadata)]
    gives it. *)
Definition table_of (name : string) (md : gmap string sqlalchemy.Table) : sqlalchemy.Table :=
  default (sqlalchemy.mkTable name [] []) (md !! name).

(** The install dictionary [install] works with. *)
Definition effective (install_dict : option (list (string * list string)))
    : list (string * list string) :=
  if bootstrap.falsy install_dict then datasets_unihan.UNIHAN_DATASETS
  else default [] install_dict.

(** ** A small installation, for the worked cases *)

Module example.

(** One line of a data file. *)
Definition line (fields : list string) : string :=
  String.concat (String pystr.tab "") fields ++ pystr.newline.

Definition readings : list string :=
  [ line ["# Unihan_Readings.txt"];
    pystr.newline;
    line ["U+597D"; "kDefinition"; "good"];
    line ["U+4F73"; "kDefinition"; "good fortune"];
    line ["U+5B50"; "kZVariant"; "U+597D"] ].

Definition get_datafile (f : string) : option (list string) :=
  if String.eqb f "Unihan_Readings.txt" then Some readings else None.

Definition install_dict : option (list (string * list string)) :=
  Some [("Unihan_Readings.txt", ["kDefinition"; "kZVariant"])].

(** Nothing declared, nothing stored, one empty response dictionary. *)
Definition response : loc := 1%positive.

Definition new_world : world := mkWorld {[response := ∅]} ∅ ∅.

Definition installed_world : world :=
  (datasets_unihan.install get_datafile install_dict new_world).2.

(** The store of the scenario: the character itself in the [char] column. *)
Definition scenario_datafile (f : string) : option (list string) :=
  if String.eqb f "Unihan_Readings.txt"
  then Some [line ["好"; "kDefinition"; "good"]] else None.

Definition scenario_world : world :=
  (datasets_unihan.install scenario_datafile install_dict new_world).2.

(** The table declared and created, no row stored. *)
Definition empty_world : world :=
  (datasets_unihan._create_table "Unihan" new_world).2.

(** The wide table of [bootstrap.create_table] in the metadata. *)
Definition wide_metadata : gmap string sqlalchemy.Table :=
  match bootstrap.create_table ["kDefinition"] ∅ with
  | Ok (_, md) => md
  | Raise _ => ∅
  end.


Definition wide_table : sqlalchemy.Table := table_of "Unihan" wide_metadata.

(** [rel] after one more INSERT, when it is let in. *)
Definition inserted (rel : sqlalchemy.Relation) (record : sqlalchemy.Row)
    : sqlalchemy.Relation :=
  match sqlalchemy.insert_row rel record with
  | Ok rel' => rel'
  | Raise _ => rel
  end.

Definition wide_rows_1 : sqlalchemy.Relation :=
  inserted (sqlalchemy.mkRelation wide_table [])
    (<["char" := sqlalchemy.SText "好"]> (<["ucn" := sqlalchemy.SText "U+597D"]>
       (<["kDefinition" := sqlalchemy.SText "good"]> ∅))).

Definition wide_rows_2 : sqlalchemy.Relation :=
  inserted wide_rows_1
    (<["char" := sqlalchemy.SText "佳"]> (<["ucn" := sqlalchemy.SText "U+4F73"]>
       (<["kDefinition" := sqlalchemy.SText "good fortune"]> ∅))).

End example.

(** The dictionaries a nested mapping [m] holds are objects of the heap
    other than the response at [l]. *)
Definition entries_apart (h : gmap loc (gmap val val)) (l : loc) (m : gmap val val) : Prop :=
  ∀ k a, m !! k = Some (VDict a) → a ≠ l ∧ is_Some (h !! a).

(** What [reverse] keeps true of the heap while it fills the response at
    [l], which held [d] when it was called. *)
Definition response_kept (l : loc) (d : gmap val val) (h : gmap loc (gmap val val)) : Prop :=
  ∃ d1 u m,
    h !! l = Some d1 ∧ (∀ k, k ≠ VStr "unihan" → d1 !! k = d !! k)
    ∧ d1 !! VStr "unihan" = Some (VDict u) ∧ u ≠ l
    ∧ h !! u = Some m ∧ entries_apart h l m.

(** A computation that leaves the metadata and the store as they are,
    however it ends. *)
Definition quiet {A} (m : M A) : Prop :=
  ∀ w, metadata (m w).2 = metadata w ∧ engine (m w).2 = engine w.

(** The records as an empty table with an INTEGER key numbers them: the
    record at position [i] is stored with row id [i + 1]. *)
Definition numbered (data : list sqlalchemy.Row) : list sqlalchemy.Row :=
  imap (λ i d, <["id" := sqlalchemy.SInt (Z.of_nat i + 1)]> d) data.

(** No two records of [data] collide on [cols]. *)
Fixpoint apart_on (cols : list string) (data : list sqlalchemy.Row) : bool :=
  match data with
  | [] => true
  | d :: rest =>
    forallb (λ d', negb (sqlalchemy.agree cols d d')) rest && apart_on cols rest
  end.

(** Every record holds the three fields, so that the records of one bulk
    INSERT bind the same parameters. *)
Definition complete (data : list sqlalchemy.Row) : Prop :=
  Forall (λ d, Forall (λ k, is_Some (d !! k)) ["char"; "field"; "value"]) data.

(** What a response at [l] holds under ['unihan']: the nested mapping, if
    there is one. *)
Definition unihan_entry (w : world) (l : loc) : option (gmap val val) :=
  match heap w !! l with
  | Some d =>
    match d !! VStr "unihan" with
    | Some (VDict u) => heap w !! u
    | _ => None
    end
  | None => None
  end.

(** A data file with two values for one field of one character. *)
Module clash.

Definition readings : list string :=
  [ example.line ["U+597D"; "kDefinition"; "good"];
    example.line ["U+4F73"; "kDefinition"; "good fortune"];
    example.line ["U+597D"; "kDefinition"; "fine"] ].

Definition get_datafile (f : string) : option (list string) :=
  if String.eqb f "Unihan_Readings.txt" then Some readings else None.

End clash.

(** ** [cihai/unihan.py] *)

Module unihan.
Import sqlalchemy.

(** [self.sql.session.query(Unihan)]: a query over the stored [Unihan]
    table is the columns its criteria name and the criteria themselves;
    [filter] adds one criterion, and the criteria hold together. *)
Record Query := mkQuery
  { q_columns : list string; q_criteria : list (Row → option bool) }.

Definition query : Query := mkQuery [] [].

Definition filter_ (q : Query) (column : string) (criterion : Row → option bool) : Query :=
  mkQuery (q_columns q ++ [column]) (q_criteria q ++ [criterion]).

(** Running the query: [OperationalError] when the store lacks the table
    or a named column. *)
Definition all (q : Query) (db : Database) : res (list Row) :=
  match from_ "Unihan" (q_columns q) db with
  | Raise e => Raise e
  | Ok rs => Ok (where_ (and_ (q_criteria q)) rs)
  end.

(** [Column(field).isnot(None)]: IS NOT NULL is never unknown. *)
Definition isnot_None (field : string) : Row → option bool :=
  λ r, Some (bool_decide (is_Some (r !! field))).

Definition lookup_char (char : string) : Query :=
  filter_ query "char" (λ r, sql_eq (r !! "char") (Some (SText char))).

Definition with_fields (fields : list string) : Query :=
  foldl (λ query field, filter_ query field (isnot_None field)) query fields.

End unihan.

(** * Properties *)

Import sqlalchemy.

(** ** [bootstrap.is_bootstrapped] *)

Lemma elem_of_flatten_datasets (d : list (string * list string)) (name : string) :
  name ∈ bootstrap.flatten_datasets d ↔ ∃ file fields, (file, fields) ∈ d ∧ name ∈ fields.
Proof.
  unfold bootstrap.flatten_datasets, bootstrap.sorted.
  rewrite merge_sort_Permutation, elem_of_remove_dups.
  induction d as [|[f fs] d IH]; simpl.
  - split; [intros H; inversion H | intros (? & ? & H & _); inversion H].
  - rewrite elem_of_app, IH. split.
    + intros [H | (f' & fs' & H1 & H2)].
      * exists f, fs. split; [left | done].
      * exists f', fs'. split; [by right | done].
    + intros (f' & fs' & H1 & H2). apply elem_of_cons in H1 as [H1 | H1].
      * left. by simplify_eq.
      * right. eauto.
Qed.

(** C2. [is_bootstrapped] answers true exactly when the metadata holds a
    table named [Unihan] whose column names are, as a set, the field names
    of the install dictionary (the manifest when none, or an empty one, is
    given) together with [char] and [ucn]; any missing or extra column makes
    it false, and so does the absence of the table. *)
Theorem is_bootstrapped_iff
    (UNIHAN_MANIFEST : list (string * list string))
    (metadata : gmap string Table)
    (install_dict : option (list (string * list string))) :
  let expected :=
    if bootstrap.falsy install_dict then UNIHAN_MANIFEST else default [] install_dict in
  (bootstrap.is_bootstrapped UNIHAN_MANIFEST metadata install_dict = true ↔
   ∃ table, metadata !! bootstrap.TABLE_NAME = Some table ∧
     ∀ name, name ∈ map c_name (t_columns table) ↔
       (∃ file fields, (file, fields) ∈ expected ∧ name ∈ fields)
       ∨ name = "char" ∨ name = "ucn")
  ∧ (metadata !! bootstrap.TABLE_NAME = None →
     bootstrap.is_bootstrapped UNIHAN_MANIFEST metadata install_dict = false).
Proof.
  intros expected. unfold bootstrap.is_bootstrapped. fold expected. split.
  - destruct (metadata !! bootstrap.TABLE_NAME) as [table|] eqn:Ht.
    + case_bool_decide as Heq.
      * split; [intros _ | done]. exists table. split; [done|]. intros name.
        assert (name ∈ (list_to_set (map c_name (t_columns table)) : gset string) ↔
                name ∈ (list_to_set (bootstrap.flatten_datasets expected
                                     ++ bootstrap.DEFAULT_COLUMNS) : gset string)) as Hn
          by (by rewrite Heq).
        rewrite !elem_of_list_to_set, elem_of_app, elem_of_flatten_datasets in Hn.
        rewrite Hn. unfold bootstrap.DEFAULT_COLUMNS.
        rewrite !elem_of_cons. set_solver.
      * split; [done|]. intros (table' & Ht' & Hcols). exfalso. apply Heq.
        simplify_eq. apply set_eq. intros name.
        rewrite !elem_of_list_to_set, elem_of_app, elem_of_flatten_datasets, Hcols.
        unfold bootstrap.DEFAULT_COLUMNS. rewrite !elem_of_cons. set_solver.
    + split; [done|]. by intros (? & ? & _).
  - by intros ->.
Qed.

(** ** [bootstrap.create_table] *)

Lemma has_column_elem (name : string) (t : Table) :
  has_column name t = true ↔ name ∈ map c_name (t_columns t).
Proof.
  unfold has_column. rewrite existsb_exists. setoid_rewrite String.eqb_eq.
  rewrite list_elem_of_In, in_map_iff. setoid_rewrite <- list_elem_of_In.
  naive_solver.
Qed.

Lemma replace_column_names (col : Column) (cs : list Column) :
  map c_name (replace_column col cs) = map c_name cs.
Proof.
  induction cs as [|c0 cs IH]; simpl; [done|].
  destruct (String.eqb (c_name c0) (c_name col)) eqn:E; simpl.
  - apply String.eqb_eq in E. by rewrite E.
  - by rewrite IH.
Qed.

Lemma append_column_indexes (col : Column) (t : Table) :
  t_indexes (sqlalchemy.append_column col t) = t_indexes t.
Proof. unfold sqlalchemy.append_column. by destruct (has_column _ _). Qed.

Lemma append_column_has (col : Column) (t : Table) (name : string) :
  has_column name t = true → has_column name (sqlalchemy.append_column col t) = true.
Proof.
  rewrite !has_column_elem. unfold sqlalchemy.append_column.
  destruct (has_column (c_name col) t); simpl.
  - by rewrite replace_column_names.
  - rewrite map_app, elem_of_app. by left.
Qed.

Lemma append_column_has_new (col : Column) (t : Table) :
  has_column (c_name col) (sqlalchemy.append_column col t) = true.
Proof.
  unfold sqlalchemy.append_column.
  destruct (has_column (c_name col) t) eqn:E; rewrite has_column_elem; simpl.
  - rewrite replace_column_names. by apply has_column_elem.
  - rewrite map_app, elem_of_app. right. simpl. by left.
Qed.

Lemma foldl_append_column_has (names : list string) (t : Table) (name : string) :
  has_column name t = true →
  has_column name
    (foldl (λ t n, sqlalchemy.append_column (Column_ n (String_ 256)) t) t names) = true.
Proof.
  revert t. induction names as [|n names IH]; intros t H; simpl; [done|].
  apply IH. by apply append_column_has.
Qed.

Lemma foldl_append_column_indexes (names : list string) (t : Table) :
  t_indexes (foldl (λ t n, sqlalchemy.append_column (Column_ n (String_ 256)) t) t names)
  = t_indexes t.
Proof.
  revert t. induction names as [|n names IH]; intros t; simpl; [done|].
  by rewrite IH, append_column_indexes.
Qed.

Lemma columns_c_ok (t : Table) (names : list string) :
  forallb (λ k, has_column k t) names = true → columns_c t names = Ok names.
Proof.
  induction names as [|n names IH]; simpl; [done|].
  intros [Hn Hr]%andb_prop. unfold sqlalchemy.c. by rewrite Hn, (IH Hr).
Qed.

Lemma Index__ok (name : string) (cols : list string) (unique : bool) (t : Table) :
  forallb (λ k, has_column k t) cols = true →
  Index_ name cols unique t
  = Ok (mkTable (t_name t) (t_columns t) (t_indexes t ++ [mkIndex name cols unique])).
Proof. intros H. unfold Index_. by rewrite (columns_c_ok _ _ H). Qed.

(** What [create_table] registers when there is no table yet. *)
Lemma create_table_new (columns : list string) (metadata : gmap string Table) :
  metadata !! bootstrap.TABLE_NAME = None →
  ∃ table,
    bootstrap.create_table columns metadata
      = Ok (bootstrap.TABLE_NAME, <[bootstrap.TABLE_NAME := table]> metadata)
    ∧ t_indexes table
      = [mkIndex "Unihan_unique_char" ["char"] true;
         mkIndex "Unihan_unique_char_ucn" ["char"; "ucn"] true].
Proof.
  intros Hnone. unfold bootstrap.create_table. rewrite Hnone.
  set (t2 := foldl _ _ columns).
  assert (has_column "char" t2 = true) as Hchar.
  { apply foldl_append_column_has. by vm_compute. }
  assert (has_column "ucn" t2 = true) as Hucn.
  { apply foldl_append_column_has. by vm_compute. }
  assert (t_indexes t2 = []) as Hidx.
  { unfold t2. by rewrite foldl_append_column_indexes. }
  rewrite Index__ok by (simpl; by rewrite Hchar).
  rewrite Index__ok by (simpl; unfold has_column in *; simpl; by rewrite Hchar, Hucn).
  eexists. split; [reflexivity|]. simpl. by rewrite Hidx.
Qed.

(** ** The store under uniqueness indexes *)

Lemma insert_row_inv (rel : Relation) (record : Row) (rel' : Relation) :
  insert_row rel record = Ok rel' →
  schema rel' = schema rel
  ∧ ∃ r, rows rel' = rows rel ++ [r]
       ∧ r = autoincrement rel record
       ∧ not_null_ok (schema rel) r = true
       ∧ unique_ok (schema rel) (rows rel) r = true.
Proof.
  unfold insert_row. destruct (negb (known_columns _ _)); [done|].
  destruct (not_null_ok _ _ && unique_ok _ _ _) eqn:E; [|done].
  intros [= <-]. apply andb_prop in E as [? ?]. simpl. eauto 10.
Qed.

Lemma unique_ok_index (t : Table) (rs : list Row) (r r' : Row) (i : Index) :
  unique_ok t rs r = true →
  i ∈ t_indexes t → i_unique i = true → r' ∈ rs →
  agree (i_columns i) r r' = false.
Proof.
  unfold unique_ok. intros [_ H]%andb_prop Hi Hu Hr'.
  rewrite forallb_forall in H. specialize (H i). rewrite <- list_elem_of_In in H.
  specialize (H Hi). rewrite Hu in H. simpl in H.
  apply negb_true_iff in H.
  destruct (agree (i_columns i) r r') eqn:E; [|done].
  assert (existsb (agree (i_columns i) r) rs = true) as Hex; [|congruence].
  apply existsb_exists. exists r'. by rewrite <- list_elem_of_In.
Qed.

Lemma agree_one (k : string) (r r' : Row) (v : sqlval) :
  r !! k = Some v → r' !! k = Some v → agree [k] r r' = true.
Proof.
  intros H H'. unfold agree. simpl. rewrite H, H'.
  by rewrite bool_decide_eq_true_2.
Qed.

Lemma reachable_schema (t : Table) (rel : Relation) :
  reachable t rel → schema rel = t.
Proof.
  induction 1 as [|rel record rel' _ IH Hins]; [done|].
  apply insert_row_inv in Hins as [-> _]. done.
Qed.

Lemma agree_sym (cols : list string) (r1 r2 : Row) :
  agree cols r1 r2 = agree cols r2 r1.
Proof.
  unfold agree. induction cols as [|k cols IH]; simpl; [done|]. rewrite IH. f_equal.
  destruct (r1 !! k), (r2 !! k); try done. apply bool_decide_ext. naive_solver.
Qed.

(** A uniqueness index keeps the stored rows apart on its columns. *)
Lemma reachable_unique_index (t : Table) (idx : Index) (rel : Relation) :
  idx ∈ t_indexes t → i_unique idx = true →
  reachable t rel →
  ∀ (i j : nat) (r1 r2 : Row),
    rows rel !! i = Some r1 → rows rel !! j = Some r2 →
    agree (i_columns idx) r1 r2 = true → i = j.
Proof.
  intros Hidx Hu. induction 1 as [|rel record rel' Hreach IH Hins].
  - intros i j r1 r2 H. simpl in H. by rewrite lookup_nil in H.
  - pose proof (reachable_schema _ _ Hreach) as Hs.
    apply insert_row_inv in Hins as (_ & r & Hrows & _ & _ & Huniq).
    rewrite Hs in Huniq. rewrite Hrows.
    assert (∀ n r', rows rel !! n = Some r' → agree (i_columns idx) r r' = false)
      as Hfresh.
    { intros n r' Hn. apply (unique_ok_index t (rows rel)); [done..|].
      apply list_elem_of_lookup. eauto. }
    intros i j r1 r2 Hi Hj Hag.
    apply lookup_app_Some in Hi as [Hi | [Hli Hi]];
      apply lookup_app_Some in Hj as [Hj | [Hlj Hj]].
    + eauto.
    + apply list_lookup_singleton_Some in Hj as [_ <-].
      rewrite agree_sym, (Hfresh _ _ Hi) in Hag. done.
    + apply list_lookup_singleton_Some in Hi as [_ <-].
      rewrite (Hfresh _ _ Hj) in Hag. done.
    + apply list_lookup_singleton_Some in Hi as [Hi _].
      apply list_lookup_singleton_Some in Hj as [Hj _]. lia.
Qed.

(** A uniqueness index on one column keeps the stored values of that column
    apart. *)
Lemma reachable_unique_column (t : Table) (name : string) (k : string) (rel : Relation) :
  mkIndex name [k] true ∈ t_indexes t →
  reachable t rel →
  ∀ (i j : nat) (r1 r2 : Row) (v : sqlval),
    rows rel !! i = Some r1 → rows rel !! j = Some r2 →
    r1 !! k = Some v → r2 !! k = Some v → i = j.
Proof.
  intros Hidx Hreach i j r1 r2 v Hi Hj H1 H2.
  apply (reachable_unique_index t _ rel Hidx eq_refl Hreach i j r1 r2 Hi Hj).
  by apply (agree_one k r1 r2 v).
Qed.

(** A NOT NULL column has a value in every stored row. *)
Lemma reachable_not_null (t : Table) (col : Column) (rel : Relation) :
  col ∈ t_columns t → c_nullable col = false →
  reachable t rel →
  ∀ r, r ∈ rows rel → is_Some (r !! c_name col).
Proof.
  intros Hcol Hnn. induction 1 as [|rel record rel' Hreach IH Hins].
  - intros r H. inversion H.
  - pose proof (reachable_schema _ _ Hreach) as Hs.
    apply insert_row_inv in Hins as (_ & r0 & Hrows & _ & Hok & _).
    rewrite Hs in Hok. rewrite Hrows. intros r [Hr | Hr]%elem_of_app; [eauto|].
    apply list_elem_of_singleton in Hr as ->.
    unfold not_null_ok in Hok. rewrite forallb_forall in Hok.
    specialize (Hok col). rewrite <- list_elem_of_In in Hok. specialize (Hok Hcol).
    rewrite Hnn in Hok. simpl in Hok. by apply bool_decide_eq_true in Hok.
Qed.

Lemma append_column_keeps (col c0 : Column) (t : Table) :
  c_name c0 ≠ c_name col → c0 ∈ t_columns t →
  c0 ∈ t_columns (sqlalchemy.append_column col t).
Proof.
  intros Hne Hin. unfold sqlalchemy.append_column.
  destruct (has_column (c_name col) t); simpl.
  - induction (t_columns t) as [|c1 cs IH]; [inversion Hin|]. simpl.
    destruct (String.eqb (c_name c1) (c_name col)) eqn:E.
    + apply String.eqb_eq in E. apply elem_of_cons in Hin as [-> | Hin]; [done|].
      by right.
    + apply elem_of_cons in Hin as [-> | Hin]; [by left|]. right. by apply IH.
  - apply elem_of_app. by left.
Qed.

Lemma foldl_append_column_keeps (names : list string) (c0 : Column) (t : Table) :
  c_name c0 ∉ names → c0 ∈ t_columns t →
  c0 ∈ t_columns
    (foldl (λ t n, sqlalchemy.append_column (Column_ n (String_ 256)) t) t names).
Proof.
  revert t. induction names as [|n names IH]; intros t Hnot Hin; simpl; [done|].
  apply not_elem_of_cons in Hnot as [Hne Hnot].
  apply IH; [done|]. by apply append_column_keeps.
Qed.

Lemma create_table_new_char (columns : list string) (metadata metadata' : gmap string Table)
    (handle : string) (table : Table) :
  metadata !! bootstrap.TABLE_NAME = None →
  bootstrap.create_table columns metadata = Ok (handle, metadata') →
  metadata' !! handle = Some table →
  "char" ∉ columns →
  Column_pk "char" (String_ 12) ∈ t_columns table.
Proof.
  intros Hnone Hct Hlk Hnot. unfold bootstrap.create_table in Hct. rewrite Hnone in Hct.
  set (t2 := foldl _ _ columns) in Hct.
  assert (Column_pk "char" (String_ 12) ∈ t_columns t2) as Hin.
  { apply foldl_append_column_keeps; [done|]. vm_compute. set_solver. }
  assert (has_column "char" t2 = true) as Hchar.
  { apply foldl_append_column_has. by vm_compute. }
  assert (has_column "ucn" t2 = true) as Hucn.
  { apply foldl_append_column_has. by vm_compute. }
  rewrite Index__ok in Hct by (simpl; by rewrite Hchar).
  rewrite Index__ok in Hct by (simpl; unfold has_column in *; simpl; by rewrite Hchar, Hucn).
  injection Hct as <- <-. rewrite lookup_insert_eq in Hlk. by injection Hlk as <-.
Qed.

(** C10. The table [create_table] builds carries a uniqueness index on
    [char] alone next to the one on [(char, ucn)]; hence in every state of
    the stored table reached by INSERTs no two rows hold the same [char],
    and, [char] being a key column unless a field of that name was asked
    for, every row holds one. *)
Theorem create_table_one_row_per_char
    (columns : list string) (metadata metadata' : gmap string Table)
    (handle : string) (table : Table) (rel : Relation) :
  metadata !! bootstrap.TABLE_NAME = None →
  bootstrap.create_table columns metadata = Ok (handle, metadata') →
  metadata' !! handle = Some table →
  reachable table rel →
  mkIndex "Unihan_unique_char" ["char"] true ∈ t_indexes table
  ∧ mkIndex "Unihan_unique_char_ucn" ["char"; "ucn"] true ∈ t_indexes table
  ∧ (∀ (i j : nat) (r1 r2 : Row) (v : sqlval),
       rows rel !! i = Some r1 → rows rel !! j = Some r2 →
       r1 !! "char" = Some v → r2 !! "char" = Some v → i = j)
  ∧ ("char" ∉ columns → ∀ r, r ∈ rows rel → is_Some (r !! "char")).
Proof.
  intros Hnone Hct Hlk Hreach.
  destruct (create_table_new columns metadata Hnone) as (table' & Heq & Hidx).
  pose proof Hct as Hct'. rewrite Heq in Hct'. injection Hct' as <- <-.
  pose proof Hlk as Hlk'. rewrite lookup_insert_eq in Hlk'. injection Hlk' as ->.
  assert (mkIndex "Unihan_unique_char" ["char"] true ∈ t_indexes table) as H1.
  { rewrite Hidx. by left. }
  split; [done|]. split; [rewrite Hidx; right; by left|]. split.
  - by apply (reachable_unique_column table "Unihan_unique_char").
  - intros Hnot.
    apply (reachable_not_null table (Column_pk "char" (String_ 12))); [|done|done].
    by apply (create_table_new_char columns metadata _ _ table Hnone Hct Hlk).
Qed.

(** ** Running code in the world *)

Lemma bind_ok {A B} (m : M A) (f : A → M B) (w w' : world) (a : A) :
  m w = (Ok a, w') → (m ≫= f) w = f a w'.
Proof. intros H. unfold mbind, M_bind. by rewrite H. Qed.

Lemma bind_raise {A B} (m : M A) (f : A → M B) (w w' : world) (e : exn) :
  m w = (Raise e, w') → (m ≫= f) w = (Raise e, w').
Proof. intros H. unfold mbind, M_bind. by rewrite H. Qed.

Lemma set_heap_id (w : world) : set_heap (heap w) w = w.
Proof. by destruct w. Qed.

Lemma set_metadata_id (w : world) : set_metadata (metadata w) w = w.
Proof. by destruct w. Qed.

Lemma deref_dict (w : world) (l : loc) (m : gmap val val) :
  heap w !! l = Some m → deref (VDict l) w = (Ok (l, m), w).
Proof. intros H. unfold deref. by rewrite H. Qed.

Lemma contains_dict (w : world) (l : loc) (m : gmap val val) (k : val) :
  heap w !! l = Some m → hashable k = true →
  contains k (VDict l) w = (Ok (bool_decide (is_Some (m !! k))), w).
Proof.
  intros H Hk. unfold contains. rewrite (bind_ok _ _ _ _ _ (deref_dict _ _ _ H)).
  by rewrite Hk.
Qed.

Lemma getitem_dict (w : world) (l : loc) (m : gmap val val) (k v : val) :
  heap w !! l = Some m → hashable k = true → m !! k = Some v →
  getitem (VDict l) k w = (Ok v, w).
Proof.
  intros H Hk Hv. unfold getitem. rewrite (bind_ok _ _ _ _ _ (deref_dict _ _ _ H)).
  by rewrite Hk, Hv.
Qed.

Lemma setitem_dict (w : world) (l : loc) (m : gmap val val) (k v : val) :
  heap w !! l = Some m → hashable k = true →
  setitem (VDict l) k v w = (Ok (), set_heap (<[l := <[k := v]> m]> (heap w)) w).
Proof.
  intros H Hk. unfold setitem. rewrite (bind_ok _ _ _ _ _ (deref_dict _ _ _ H)).
  by rewrite Hk.
Qed.

Lemma delitem_dict (w : world) (l : loc) (m : gmap val val) (k v : val) :
  heap w !! l = Some m → hashable k = true → m !! k = Some v →
  delitem (VDict l) k w = (Ok (), set_heap (<[l := delete k m]> (heap w)) w).
Proof.
  intros H Hk Hv. unfold delitem. rewrite (bind_ok _ _ _ _ _ (deref_dict _ _ _ H)).
  by rewrite Hk, Hv.
Qed.

Lemma truth_dict (w : world) (l : loc) (m : gmap val val) :
  heap w !! l = Some m →
  truth (VDict l) w = (Ok (negb (bool_decide (m = ∅))), w).
Proof.
  intros H. unfold truth. by rewrite (bind_ok _ _ _ _ _ (deref_dict _ _ _ H)).
Qed.

Lemma row_item_hashable (r : Row) (column : string) : hashable (row_item r column) = true.
Proof. unfold row_item. by destruct (r !! column) as [[]|]. Qed.

(** The loop of [get]: every selected row lands in the nested mapping and
    nowhere else. *)
Lemma get_loop (query : list Row) (w : world) (l u : loc) (d m : gmap val val) :
  heap w !! l = Some d → d !! VStr "unihan" = Some (VDict u) → u ≠ l →
  heap w !! u = Some m →
  for_ query (λ r,
    unihan ← getitem (VDict l) "unihan";
    setitem unihan (row_item r "field") (row_item r "value")) w
  = (Ok (), set_heap (<[u := fill query m]> (heap w)) w).
Proof.
  revert w m. induction query as [|r query IH]; intros w m Hl Hu Hne Hm.
  - simpl. unfold mret, M_ret. by rewrite insert_id, set_heap_id.
  - cbn [for_].
    erewrite bind_ok; [|erewrite bind_ok;
      [by apply setitem_dict; [|apply row_item_hashable] | by eapply getitem_dict]].
    erewrite IH; simpl; [|by rewrite lookup_insert_ne|done|done|by rewrite lookup_insert_eq].
    by rewrite insert_insert_eq.
Qed.

Lemma long_format_columns (t : Table) :
  long_format t = true →
  has_column "field" t = true ∧ has_column "value" t = true ∧ has_column "char" t = true.
Proof. unfold long_format. by intros [[? ?]%andb_prop ?]%andb_prop. Qed.

Lemma names_no_seq (names : list string) : existsb is_seq (map PStr names) = false.
Proof. induction names; simpl; auto. Qed.

Lemma active_filter_no_seq (fields : option (list string)) :
  existsb is_seq (active_filter fields) = false.
Proof.
  unfold active_filter, field_filter. destruct fields as [fs|]; simpl; [|done].
  apply names_no_seq.
Qed.

(** The statement stage shared by [get] and [reverse]. *)
Lemma query_stage {A} (w : world) (params : list param)
    (stmt : string → string → string → list Row → list Row) (k : list Row → M A) :
  installed w → existsb is_seq params = false →
  (table ← W.Table "Unihan";
   field ← W.c table "field";
   value ← W.c table "value";
   char_ ← W.c table "char";
   query ← W.execute table [field; value; char_] params (stmt field value char_);
   k query) w
  = k (stmt "field" "value" "char" (stored_rows w)) w.
Proof.
  intros (t & rel & Ht & Hlf & Hrel & Hlf') Hseq.
  apply long_format_columns in Hlf as (Hf & Hv & Hc).
  apply long_format_columns in Hlf' as (Hf' & Hv' & Hc').
  erewrite bind_ok; [|unfold W.Table, Table_; rewrite Ht; by rewrite set_metadata_id].
  erewrite bind_ok; [|unfold W.c, sqlalchemy.c; by rewrite Ht, Hf].
  erewrite bind_ok; [|unfold W.c, sqlalchemy.c; by rewrite Ht, Hv].
  erewrite bind_ok; [|unfold W.c, sqlalchemy.c; by rewrite Ht, Hc].
  erewrite bind_ok; [reflexivity|].
  unfold W.execute, from_, stored_rows. rewrite Hrel. simpl.
  by rewrite Hf', Hv', Hc', Hseq.
Qed.

(** ** [Unihan.get] *)

(** What [get] leaves behind: the response object itself comes back, only
    its [unihan] entry may differ, and that entry is the filled nested
    mapping, or gone when the mapping is empty. *)
Lemma get_run (w : world) (request : string) (l : loc) (d m0 : gmap val val)
    (fields : option (list string)) :
  installed w → heap w !! l = Some d → nested (heap w) l d m0 →
  ∃ w' d',
    datasets_unihan.get request (VDict l) (field_filter fields) w = (Ok (VDict l), w')
    ∧ metadata w' = metadata w ∧ engine w' = engine w
    ∧ heap w' !! l = Some d'
    ∧ (∀ k, k ≠ VStr "unihan" → d' !! k = d !! k)
    ∧ (fill (get_query w request fields) m0 = ∅ → d' !! VStr "unihan" = None)
    ∧ (fill (get_query w request fields) m0 ≠ ∅ →
       ∃ u, d' !! VStr "unihan" = Some (VDict u) ∧ u ≠ l
            ∧ heap w' !! u = Some (fill (get_query w request fields) m0)).
Proof.
  intros Hinst Hl Hnested. unfold datasets_unihan.get.
  change (match field_filter fields with
          | Some fs => fs
          | None => map PSeq datasets_unihan.default_fields
          end) with (active_filter fields).
  change (if negb (pystr.startswith request "U+")
          then conversion.python_to_ucn request else request) with (normalized request).
  rewrite query_stage; [|done|by rewrite existsb_app, active_filter_no_seq].
  fold (get_query w request fields). set (query := get_query w request fields).
  cbn [ResultProxy_bool].
  assert (∃ w1 d1 u,
    (has ← contains "unihan" (VDict l);
     (if negb has then d0 ← new_dict; setitem (VDict l) "unihan" d0 else mret ());;
     for_ query (λ r,
       unihan ← getitem (VDict l) "unihan";
       setitem unihan (row_item r "field") (row_item r "value"))) w = (Ok (), w1)
    ∧ metadata w1 = metadata w ∧ engine w1 = engine w
    ∧ heap w1 !! l = Some d1 ∧ d1 !! VStr "unihan" = Some (VDict u) ∧ u ≠ l
    ∧ heap w1 !! u = Some (fill query m0)
    ∧ ∀ k, k ≠ VStr "unihan" → d1 !! k = d !! k) as (w1 & d1 & u & Hrun & Hmd & Hdb & Hl1 & Hu1 & Hne & Hm1 & Hframe).
  { destruct Hnested as [[Hnone ->] | (u & Hu & Hne & Hm)].
    - set (u := fresh (dom (heap w))).
      assert (u ≠ l) as Hne.
      { intros Heq. apply (is_fresh (dom (heap w))). fold u. rewrite Heq.
        apply elem_of_dom. by exists d. }
      erewrite bind_ok; [|by eapply contains_dict].
      rewrite Hnone. rewrite bool_decide_eq_false_2 by (by intros [? ?]). cbn [negb].
      erewrite bind_ok; cycle 1.
      { erewrite bind_ok; [|reflexivity]. fold u.
        eapply setitem_dict; [|done]. simpl. by rewrite lookup_insert_ne. }
      erewrite get_loop; cycle 1.
      { simpl. by rewrite lookup_insert_eq. }
      { by rewrite lookup_insert_eq. }
      { done. }
      { simpl. rewrite lookup_insert_ne by done. by rewrite lookup_insert_eq. }
      eexists _, _, u. split; [reflexivity|]. simpl.
      split; [done|]. split; [done|].
      rewrite lookup_insert_ne by done. rewrite lookup_insert_eq.
      split; [done|]. rewrite !lookup_insert_eq. split; [done|]. split; [done|].
      split; [done|]. intros k Hk. by rewrite lookup_insert_ne.
    - erewrite bind_ok; [|by eapply contains_dict].
      rewrite Hu. rewrite bool_decide_eq_true_2 by eauto. cbn [negb].
      erewrite bind_ok; [|reflexivity].
      erewrite get_loop; [|done..].
      eexists _, d, u. split; [reflexivity|]. simpl.
      rewrite lookup_insert_ne by done. rewrite lookup_insert_eq. done. }
  erewrite bind_ok; [|exact Hrun].
  erewrite bind_ok; [|by eapply getitem_dict].
  erewrite bind_ok; [|by eapply truth_dict].
  destruct (decide (fill query m0 = ∅)) as [Hempty | Hfull].
  - rewrite bool_decide_eq_true_2 by done. cbn [negb].
    erewrite bind_ok; [|by eapply delitem_dict].
    eexists _, (delete (VStr "unihan") d1). split; [reflexivity|]. simpl.
    rewrite lookup_insert_eq, lookup_delete_eq.
    split; [done|]. split; [done|]. split; [done|]. split.
    + intros k Hk. rewrite lookup_delete_ne by done. by apply Hframe.
    + split; [done|]. intros H. by destruct H.
  - rewrite bool_decide_eq_false_2 by done. cbn [negb].
    erewrite bind_ok; [|reflexivity].
    eexists w1, d1. split; [reflexivity|].
    split; [done|]. split; [done|]. split; [done|]. split; [done|].
    split; [done|]. intros _. eauto.
Qed.

Lemma and__true (clauses : list (Row → option bool)) (r : Row) :
  and_ clauses r = Some true → Forall (λ cl, cl r = Some true) clauses.
Proof.
  unfold and_. induction clauses as [|cl clauses IH]; simpl; [by constructor|].
  intros H. destruct (cl r) as [[]|] eqn:E;
    destruct (foldr _ _ clauses) as [[]|] eqn:E'; simpl in H; try done.
  constructor; [done|]. by apply IH.
Qed.

Lemma where__nil_intro (cond : Row → option bool) (rs : list Row) :
  (∀ r, r ∈ rs → cond r ≠ Some true) → where_ cond rs = [].
Proof.
  intros H. unfold where_. induction rs as [|r rs IH]; [done|].
  rewrite filter_cons. destruct (decide (cond r = Some true)) as [E|E].
  - exfalso. apply (H r); [by left | done].
  - apply IH. intros r' Hr'. apply H. by right.
Qed.

(** A row passes the joined clauses of a filter only if its field equals
    every name of the filter. *)
Lemma and__filter (names : list string) (f : string) (r : Row) :
  and_ (map (λ t (r0 : Row), eq_param (r0 !! "field") t) (map PStr names)) r = Some true →
  f ∈ names → r !! "field" = Some (SText f).
Proof.
  intros Hand Hf. apply and__true in Hand. rewrite Forall_forall in Hand.
  specialize (Hand (λ r0 : Row, eq_param (r0 !! "field") (PStr f))).
  simpl in Hand. unfold sql_eq in Hand.
  assert (match r !! "field" with
          | Some x => Some (bool_decide (x = SText f))
          | None => None
          end = Some true) as Hm.
  { apply Hand. apply list_elem_of_In. rewrite map_map.
    apply list_elem_of_In.
    apply (list_elem_of_fmap_2 (λ x (r0 : Row), eq_param (r0 !! "field") (PStr x))) in Hf.
    exact Hf. }
  destruct (r !! "field") as [x|]; [|done].
  injection Hm as Hm. apply bool_decide_eq_true in Hm. by subst x.
Qed.

Lemma scalar_of_nothing (rs : list Row) :
  where_ (λ r : Row, sql_eq (r !! "field") (as_scalar [])) rs = [].
Proof.
  apply where__nil_intro. intros r _. unfold sql_eq. simpl. by destruct (r !! "field").
Qed.

(** A name in the filter that no stored row carries leaves the inner
    SELECT, and with it the statement, without rows. *)
Lemma get_statement_unmatched (names : list string) (f request : string) (rs : list Row) :
  f ∈ names → (∀ r, r ∈ rs → r !! "field" ≠ Some (SText f)) →
  datasets_unihan.get_statement "field" "value" "char" (map PStr names) request rs = [].
Proof.
  intros Hf Hrs. unfold datasets_unihan.get_statement.
  rewrite (where__nil_intro (and_ _) rs); cycle 1.
  { intros r Hr Hand. apply (Hrs r Hr). by apply (and__filter names). }
  simpl. by rewrite scalar_of_nothing.
Qed.

(** Two different names in the filter: no row has both as its field, and
    the statement selects nothing. *)
Lemma reverse_statement_two_names (names : list string) (f g request : string)
    (rs : list Row) :
  f ∈ names → g ∈ names → f ≠ g →
  datasets_unihan.reverse_statement "field" "value" "char" (map PStr names) request rs = [].
Proof.
  intros Hf Hg Hne. unfold datasets_unihan.reverse_statement.
  rewrite (where__nil_intro (and_ _) rs); cycle 1.
  { intros r Hr Hand.
    pose proof (and__filter names f r Hand Hf) as H1.
    pose proof (and__filter names g r Hand Hg) as H2. congruence. }
  simpl. by rewrite scalar_of_nothing.
Qed.

Lemma project_lookup (columns : list string) (r : Row) (k : string) :
  k ∈ columns → W.project columns r !! k = r !! k.
Proof.
  intros Hk. unfold W.project. destruct (r !! k) as [v|] eqn:E.
  - apply map_lookup_filter_Some. by split.
  - apply map_lookup_filter_None. left. done.
Qed.

(** Every row [get]'s statement selects holds the normalized request in its
    [value] column. *)
Lemma get_query_value (w : world) (request : string) (fields : option (list string))
    (r : Row) :
  r ∈ get_query w request fields → r !! "value" = Some (SText (normalized request)).
Proof.
  unfold get_query, datasets_unihan.get_statement. intros Hr.
  apply list_elem_of_fmap in Hr as (r0 & -> & Hr0).
  rewrite project_lookup by set_solver.
  unfold where_ in Hr0. apply list_elem_of_filter in Hr0 as [Hv _].
  unfold sql_eq in Hv. destruct (r0 !! "value") as [x|]; [|done].
  injection Hv as Hv. apply bool_decide_eq_true in Hv. by subst x.
Qed.




(** C6, as the code has it. The names of a field filter are not checked
    against the catalog: [get] runs its statement with them and returns.
    A name that no stored row carries, such as one the catalog does not
    know, makes the statement select nothing, and the response comes back
    as it was, without a ['unihan'] key. *)
Theorem get_unchecked_filter (w : world) (request : string) (l : loc)
    (d : gmap val val) (names : list string) (f : string) :
  installed w → heap w !! l = Some d → d !! VStr "unihan" = None →
  f ∈ names → (∀ r, r ∈ stored_rows w → r !! "field" ≠ Some (SText f)) →
  get_query w request (Some names) = []
  ∧ ∃ w', datasets_unihan.get request (VDict l) (field_filter (Some names)) w
            = (Ok (VDict l), w')
          ∧ heap w' !! l = Some d.
Proof.
  intros Hinst Hl Hnone Hf Hrs.
  assert (get_query w request (Some names) = []) as Hq.
  { unfold get_query. simpl. by apply (get_statement_unmatched names f). }
  split; [done|].
  destruct (get_run w request l d ∅ (Some names) Hinst Hl) as
    (w' & d' & Hrun & _ & _ & Hl' & Hframe & Hempty & _); [by left|].
  exists w'. split; [done|]. rewrite Hl'. f_equal. apply map_eq. intros k.
  destruct (decide (k = VStr "unihan")) as [->|Hk]; [|by apply Hframe].
  rewrite Hnone. apply Hempty. by rewrite Hq.
Qed.

(** ** [Unihan.install]: reading the data files *)

Lemma startswith_hash (l0 : ascii) (r : string) :
  pystr.startswith (String l0 r) "#" = Ascii.eqb l0 pystr.hash.
Proof.
  unfold pystr.startswith, pystr.hash. cbn [String.prefix].
  destruct (ascii_dec "#" l0) as [<-|Hne].
  - rewrite Ascii.eqb_refl. by destruct r.
  - symmetry. apply Ascii.eqb_neq. congruence.
Qed.

Lemma kept_skipped (l : string) :
  l ≠ "" → datasets_unihan.kept l = Ok (bool_decide (¬ skipped l)).
Proof.
  intros Hl. destruct l as [|l0 r]; [done|]. unfold datasets_unihan.kept. f_equal.
  unfold skipped. rewrite startswith_hash.
  destruct (Ascii.eqb l0 pystr.hash); cbn [negb andb].
  - rewrite bool_decide_eq_false_2; [done|]. intros H. apply H. by right.
  - destruct (String.eqb (String l0 r) pystr.newline) eqn:E1; cbn [negb].
    + apply String.eqb_eq in E1. rewrite bool_decide_eq_false_2; [done|].
      intros H. apply H. by left.
    + apply String.eqb_neq in E1. rewrite bool_decide_eq_true_2; [done|].
      by intros [? | ?].
Qed.



(** ** [Unihan._create_table] *)

Lemma modify_table_ok (table : string) (f : Table → res Table) (w : world) (t t' : Table) :
  metadata w !! table = Some t → f t = Ok t' →
  W.modify_table table f w = (Ok (), set_metadata (<[table := t']> (metadata w)) w).
Proof. intros H Hf. unfold W.modify_table. by rewrite H, Hf. Qed.

Lemma Table__lookup (name : string) (md : gmap string Table) :
  Table_ name md !! name = Some (table_of name md).
Proof.
  unfold Table_, table_of. destruct (md !! name) eqn:E; simpl; [done|].
  by rewrite lookup_insert_eq.
Qed.

Lemma insert_Table_ (name : string) (t : Table) (md : gmap string Table) :
  <[name := t]> (Table_ name md) = <[name := t]> md.
Proof.
  unfold Table_. destruct (md !! name); [done|]. by rewrite insert_insert_eq.
Qed.

(** [_create_table] declares its columns and indexes on the table object
    of that name, new or not, and creates in the store what the store does
    not have. *)
Lemma _create_table_run (table_name : string) (w : world) :
  let t' := declared table_name (table_of table_name (metadata w)) in
  let md' := <[table_name := t']> (metadata w) in
  datasets_unihan._create_table table_name w
  = (Ok table_name, mkWorld (heap w) md' (create_all md' (engine w))).
Proof.
  intros t' md'. unfold datasets_unihan._create_table.
  erewrite bind_ok; [|reflexivity].
  set (t0 := table_of table_name (metadata w)).
  set (t1 := sqlalchemy.append_column (Column_pk "id" Integer) t0).
  set (t2 := sqlalchemy.append_column (Column_ "char" (String_ 12)) t1).
  set (t3 := sqlalchemy.append_column (Column_ "field" (String_ 36)) t2).
  set (t4 := sqlalchemy.append_column (Column_ "value" (String_ 256)) t3).
  assert (has_column "char" t4 = true) as Hc.
  { do 2 apply append_column_has. apply (append_column_has_new (Column_ "char" _)). }
  assert (has_column "field" t4 = true) as Hf.
  { apply append_column_has. apply (append_column_has_new (Column_ "field" _)). }
  assert (has_column "value" t4 = true) as Hv.
  { apply (append_column_has_new (Column_ "value" _)). }
  erewrite bind_ok; cycle 1.
  { unfold W.append_column. eapply modify_table_ok; [|reflexivity].
    simpl. apply Table__lookup. }
  fold t0 t1. cbn [for_].
  erewrite bind_ok; cycle 1.
  { erewrite bind_ok; cycle 1.
    { unfold W.append_column. eapply modify_table_ok; [|reflexivity].
      simpl. apply lookup_insert_eq. }
    erewrite bind_ok; cycle 1.
    { unfold W.append_column. eapply modify_table_ok; [|reflexivity].
      simpl. apply lookup_insert_eq. }
    erewrite bind_ok; cycle 1.
    { unfold W.append_column. eapply modify_table_ok; [|reflexivity].
      simpl. apply lookup_insert_eq. }
    reflexivity. }
  cbn [fst snd]. fold t2 t3 t4.
  erewrite bind_ok; cycle 1.
  { unfold W.Index. eapply modify_table_ok; [simpl; apply lookup_insert_eq|].
    apply Index__ok. simpl. by rewrite Hc, Hf, Hv. }
  erewrite bind_ok; cycle 1.
  { unfold W.Index. eapply modify_table_ok; [simpl; apply lookup_insert_eq|].
    apply Index__ok. unfold has_column in *. simpl. by rewrite Hc, Hf. }
  erewrite bind_ok; cycle 1.
  { unfold W.Index. eapply modify_table_ok; [simpl; apply lookup_insert_eq|].
    apply Index__ok. unfold has_column in *. simpl. by rewrite Hf. }
  erewrite bind_ok; [|reflexivity].
  unfold mret, M_ret. f_equal. unfold set_engine, set_metadata. simpl.
  rewrite !insert_insert_eq, insert_Table_.
  unfold md', t', declared. fold t0 t1 t2 t3 t4. simpl.
  rewrite <- !app_assoc. done.
Qed.

(** ** [Unihan.install] *)



Lemma create_all_lookup_new (md : gmap string Table) (db : gmap string Relation)
    (k : string) (t : Table) :
  db !! k = None → md !! k = Some t → create_all md db !! k = Some (mkRelation t []).
Proof.
  intros H H'. unfold create_all. by rewrite lookup_union, H, lookup_fmap, H'.
Qed.


Lemma fields_nil : datasets_unihan.fields = [].
Proof. reflexivity. Qed.

(** [install] once the data files are read. *)
Lemma install_run (get_datafile : string → option (list string))
    (install_dict : option (list (string * list string))) (w : world) (data : list Row) :
  datasets_unihan.csv_to_dictlists get_datafile ["char"; "field"; "value"]
    (map fst (effective install_dict)) = Ok data →
  let md' := <["Unihan" := declared "Unihan" (table_of "Unihan" (metadata w))]> (metadata w) in
  datasets_unihan.install get_datafile install_dict w
  = ((match (sqlalchemy.execute_insert "Unihan" data (create_all md' (engine w))).1 with
      | Ok _ => Ok "Unihan"
      | Raise e => Raise e
      end),
     mkWorld (heap w) md'
       (sqlalchemy.execute_insert "Unihan" data (create_all md' (engine w))).2).
Proof.
  intros Hdata md'. unfold datasets_unihan.install. fold (effective install_dict).
  erewrite bind_ok; [|unfold lift; by rewrite Hdata].
  erewrite bind_ok; [|apply _create_table_run].
  unfold datasets_unihan.insert_rows. rewrite fields_nil. cbn [map].
  unfold W.execute_insert, mbind, M_bind, mret, M_ret. simpl. fold md'.
  by destruct (sqlalchemy.execute_insert _ _ _) as [[[]|e] db].
Qed.

Lemma install_raise (get_datafile : string → option (list string))
    (install_dict : option (list (string * list string))) (w : world) (e : exn) :
  datasets_unihan.csv_to_dictlists get_datafile ["char"; "field"; "value"]
    (map fst (effective install_dict)) = Raise e →
  datasets_unihan.install get_datafile install_dict w = (Raise e, w).
Proof.
  intros Hdata. unfold datasets_unihan.install. fold (effective install_dict).
  erewrite bind_raise; [done|]. unfold lift. by rewrite Hdata.
Qed.



Lemma insert_rows_reachable (t : Table) (rel : Relation) (data : list Row) (rel' : Relation) :
  reachable t rel → insert_rows rel data = Ok rel' → reachable t rel'.
Proof.
  revert rel. induction data as [|d data IH]; intros rel Hreach; simpl.
  - by intros [= <-].
  - destruct (insert_row rel d) as [rel1|] eqn:E; [|done].
    apply IH. by apply (reachable_insert t rel d).
Qed.

(** The long-format table of a first [_create_table]. *)
Lemma declared_indexes :
  t_indexes (declared "Unihan" (mkTable "Unihan" [] []))
  = [mkIndex "Unihan_unique_char_field_value" ["char"; "field"; "value"] true;
     mkIndex "Unihan_unique_char_field" ["char"; "field"] true;
     mkIndex "Unihan_field" ["field"] false].
Proof. reflexivity. Qed.

Lemma declared_primary_key :
  primary_key (declared "Unihan" (mkTable "Unihan" [] []))
  = [mkColumn "id" Integer true false].
Proof. reflexivity. Qed.




Lemma comprehension_elem (keys combine : list string) (data : list Row) (d : Row) :
  datasets_unihan.comprehension keys combine = Ok data → d ∈ data →
  ∃ l, l ∈ combine ∧ ¬ skipped l ∧ d = datasets_unihan.record keys l.
Proof.
  revert data. induction combine as [|l combine IH]; intros data; simpl.
  - intros [= <-] H. inversion H.
  - destruct (datasets_unihan.kept l) as [k|] eqn:Ek; [|done].
    destruct (datasets_unihan.comprehension keys combine) as [ds|] eqn:Ec; [|done].
    intros [= <-] Hd.
    assert (d ∈ ds → ∃ l0, l0 ∈ l :: combine ∧ ¬ skipped l0
                            ∧ d = datasets_unihan.record keys l0) as Hrest.
    { intros H. destruct (IH ds eq_refl H) as (l0 & ? & ? & ?).
      exists l0. split; [by right | done]. }
    destruct k; [|by apply Hrest].
    apply elem_of_cons in Hd as [-> | Hd]; [|by apply Hrest].
    exists l. split; [by left|]. split; [|done].
    assert (l ≠ "") as Hl by (by intros ->).
    rewrite (kept_skipped l Hl) in Ek. injection Ek as Ek.
    by apply bool_decide_eq_true in Ek.
Qed.


(** ** An existing table *)




(** ** Worked cases *)

Lemma installed_example : installed example.installed_world.
Proof. eexists _, _. repeat split; vm_compute; reflexivity. Qed.


(** C1 fails on the code. [get] compares the normalized request with the
    [value] column, not with [char]: every row it selects holds the
    normalized request as its value. With the row (U+597D, kDefinition,
    good) stored, or the row (好, kDefinition, good) of the scenario,
    looking up 好 under kDefinition leaves the response empty, and so does
    [bootstrap.get]; under kZVariant it returns the row of another
    character, U+5B50, whose value is the tag U+597D. *)
Theorem get_compares_value :
  (∀ (w : world) (request : string) (fields : option (list string)) (r : Row),
     r ∈ get_query w request fields → r !! "value" = Some (SText (normalized request)))
  ∧ (∃ w', datasets_unihan.get "好" (VDict example.response)
           (field_filter (Some ["kDefinition"])) example.installed_world
         = (Ok (VDict example.response), w')
       ∧ heap w' !! example.response = Some ∅)
  ∧ (∃ w', datasets_unihan.get "好" (VDict example.response)
             (field_filter (Some ["kDefinition"])) example.scenario_world
           = (Ok (VDict example.response), w')
         ∧ heap w' !! example.response = Some ∅)
  ∧ (∃ w' u, bootstrap.get [] "好" (field_filter (Some ["kDefinition"]))
               example.installed_world = (Ok (VDict u), w')
           ∧ heap w' !! u = Some ∅)
  ∧ (∃ w' u, datasets_unihan.get "好" (VDict example.response)
               (field_filter (Some ["kZVariant"])) example.installed_world
             = (Ok (VDict example.response), w')
           ∧ heap w' !! example.response = Some {[VStr "unihan" := VDict u]}
           ∧ heap w' !! u = Some {[VStr "kZVariant" := VStr "U+597D"]}).
Proof.
  split; [apply get_query_value|]. split; [|split; [|split]].
  - eexists. split; [vm_compute; reflexivity|]. vm_compute. reflexivity.
  - eexists. split; [vm_compute; reflexivity|]. vm_compute. reflexivity.
  - eexists _, _. split; [vm_compute; reflexivity|]. vm_compute. reflexivity.
  - eexists _, _. split; [vm_compute; reflexivity|].
    split; vm_compute; reflexivity.
Qed.

(** C5 fails on the code. The clauses of the filter are joined by AND, so a
    filter with two different field names selects nothing, whatever is
    stored: with the rows of 好 (good)
    and 佳 (good fortune) stored under kDefinition, [reverse] of [good%]
    under kDefinition groups both characters, under kDefinition and
    kMandarin it leaves the response empty. *)
Theorem reverse_joins_filter_by_and :
  (∀ (names : list string) (f g request : string) (rs : list Row),
     f ∈ names → g ∈ names → f ≠ g →
     datasets_unihan.reverse_statement "field" "value" "char" (map PStr names) request rs
     = [])
  ∧ (∃ w' u a b,
     datasets_unihan.reverse "good%" (VDict example.response)
       (field_filter (Some ["kDefinition"])) example.installed_world
     = (Ok (VDict example.response), w')
     ∧ heap w' !! example.response = Some {[VStr "unihan" := VDict u]}
     ∧ heap w' !! u = Some {[VStr "好" := VDict a; VStr "佳" := VDict b]}
     ∧ heap w' !! a = Some {[VStr "kDefinition" := VStr "good"]}
     ∧ heap w' !! b = Some {[VStr "kDefinition" := VStr "good fortune"]})
  ∧ (∃ w',
       datasets_unihan.reverse "good%" (VDict example.response)
         (field_filter (Some ["kDefinition"; "kMandarin"])) example.installed_world
       = (Ok (VDict example.response), w')
       ∧ heap w' !! example.response = Some ∅).
Proof.
  split; [apply reverse_statement_two_names|]. split.
  - eexists _, _, _, _. split; [vm_compute; reflexivity|].
    repeat split; vm_compute; reflexivity.
  - eexists. split; [vm_compute; reflexivity|]. vm_compute. reflexivity.
Qed.

(** C6 as stated fails on the code: [kNoSuchField] is in no data set of
    the catalog, and looking up 好 under it raises nothing; the call
    returns the response, left empty. *)
Lemma get_unknown_field_returns :
  bool_decide ("kNoSuchField" ∈ concat (map snd datasets_unihan.UNIHAN_DATASETS)) = false
  ∧ ∃ w', datasets_unihan.get "好" (VDict example.response)
            (field_filter (Some ["kNoSuchField"])) example.installed_world
          = (Ok (VDict example.response), w')
        ∧ heap w' !! example.response = Some ∅.
Proof.
  split; [vm_compute; reflexivity|].
  eexists. split; [vm_compute; reflexivity|]. vm_compute. reflexivity.
Qed.


Lemma get_unchecked_filter_witness :
  get_query example.installed_world "好" (Some ["kNoSuchField"]) = []
  ∧ ∃ w', datasets_unihan.get "好" (VDict example.response)
            (field_filter (Some ["kNoSuchField"])) example.installed_world
          = (Ok (VDict example.response), w')
        ∧ heap w' !! example.response = Some ∅.
Proof.
  apply (get_unchecked_filter example.installed_world "好" example.response ∅
           ["kNoSuchField"] "kNoSuchField").
  - apply installed_example.
  - vm_compute. reflexivity.
  - vm_compute. reflexivity.
  - by left.
  - apply Forall_forall. apply (bool_decide_unpack _). vm_compute. exact I.
Defined.



Lemma create_table_one_row_per_char_witness :
  mkIndex "Unihan_unique_char" ["char"] true ∈ t_indexes example.wide_table
  ∧ mkIndex "Unihan_unique_char_ucn" ["char"; "ucn"] true ∈ t_indexes example.wide_table
  ∧ (∀ (i j : nat) (r1 r2 : Row) (v : sqlval),
       rows example.wide_rows_2 !! i = Some r1 → rows example.wide_rows_2 !! j = Some r2 →
       r1 !! "char" = Some v → r2 !! "char" = Some v → i = j)
  ∧ ("char" ∉ ["kDefinition"] →
     ∀ r, r ∈ rows example.wide_rows_2 → is_Some (r !! "char")).
Proof.
  apply (create_table_one_row_per_char ["kDefinition"] ∅ example.wide_metadata "Unihan"
           example.wide_table example.wide_rows_2).
  - vm_compute. reflexivity.
  - vm_compute. reflexivity.
  - vm_compute. reflexivity.
  - apply (reachable_insert example.wide_table example.wide_rows_1
             (<["char" := SText "佳"]> (<["ucn" := SText "U+4F73"]>
                (<["kDefinition" := SText "good fortune"]> ∅)))).
    + apply (reachable_insert example.wide_table (mkRelation example.wide_table [])
               (<["char" := SText "好"]> (<["ucn" := SText "U+597D"]>
                  (<["kDefinition" := SText "good"]> ∅)))).
      * constructor.
      * vm_compute. reflexivity.
    + vm_compute. reflexivity.
Defined.

(** ** [Unihan.reverse] and the response *)

Lemma row_item_not_dict (r : Row) (column : string) (a : loc) :
  row_item r column ≠ VDict a.
Proof. unfold row_item. by destruct (r !! column) as [[]|]. Qed.

Lemma is_Some_insert_heap (h : gmap loc (gmap val val)) (a b : loc) (ma : gmap val val) :
  is_Some (h !! b) → is_Some (<[a := ma]> h !! b).
Proof.
  intros [mb Hb]. destruct (decide (a = b)) as [->|Hne].
  - rewrite lookup_insert_eq. eauto.
  - rewrite lookup_insert_ne by done. eauto.
Qed.

Lemma entries_apart_insert_heap (h : gmap loc (gmap val val)) (l a : loc)
    (m ma : gmap val val) :
  entries_apart h l m → entries_apart (<[a := ma]> h) l m.
Proof.
  intros H k b Hk. destruct (H k b Hk) as [? ?]. split; [done|].
  by apply is_Some_insert_heap.
Qed.

(** One round of the loop of [reverse], however it ends. *)
Lemma reverse_body_kept (l : loc) (d : gmap val val) (r : Row) (w : world) :
  response_kept l d (heap w) →
  ∃ res w',
    (char ← datasets_unihan.ucn_to_unicode (row_item r "char");
     unihan ← getitem (VDict l) "unihan";
     has ← contains char unihan;
     (if negb has then
        d0 ← new_dict;
        unihan ← getitem (VDict l) "unihan";
        setitem unihan char d0
      else mret ());;
     unihan ← getitem (VDict l) "unihan";
     entry ← getitem unihan char;
     setitem entry (row_item r "field") (row_item r "value")) w = (res, w')
    ∧ response_kept l d (heap w').
Proof.
  intros (d1 & u & m & Hl & Hframe & Hu & Hne & Hm & Hent).
  assert (response_kept l d (heap w)) as Hkept by (exists d1, u, m; done).
  unfold datasets_unihan.ucn_to_unicode.
  destruct (row_item r "char") as [| |s|] eqn:Echar;
    try (eexists _, w; split; [by erewrite bind_raise|done]).
  destruct (conversion.ucn_to_unicode s) as [ch|e] eqn:Ech;
    [|eexists _, w; split; [by erewrite bind_raise|done]].
  erewrite bind_ok; [|reflexivity].
  erewrite bind_ok; [|by eapply getitem_dict].
  erewrite bind_ok; [|by eapply contains_dict].
  destruct (m !! VStr ch) as [entry|] eqn:Eentry.
  - rewrite bool_decide_eq_true_2 by eauto. cbn [negb].
    erewrite bind_ok; [|reflexivity].
    erewrite bind_ok; [|by eapply getitem_dict].
    erewrite bind_ok; [|by eapply getitem_dict].
    destruct entry as [| | |a];
      try (eexists _, w; split; [reflexivity|done]).
    destruct (Hent _ _ Eentry) as [Hal [ma Hma]].
    eexists _, _. split; [by eapply setitem_dict; [|apply row_item_hashable]|].
    simpl. destruct (decide (a = u)) as [->|Hau].
    + assert (ma = m) as -> by congruence.
      exists d1, u, (<[row_item r "field" := row_item r "value"]> m).
      rewrite lookup_insert_ne by done. rewrite lookup_insert_eq.
      repeat (split; [done|]). apply entries_apart_insert_heap.
      intros k b Hk. destruct (decide (k = row_item r "field")) as [->|Hkne].
      * rewrite lookup_insert_eq in Hk. injection Hk as Hk.
        by destruct (row_item_not_dict r "value" b).
      * rewrite lookup_insert_ne in Hk by done. eauto.
    + exists d1, u, m. rewrite !lookup_insert_ne by done.
      repeat (split; [done|]). by apply entries_apart_insert_heap.
  - rewrite bool_decide_eq_false_2 by (by intros [? ?]). cbn [negb].
    set (a := fresh (dom (heap w))).
    assert (heap w !! a = None) as Ha.
    { apply not_elem_of_dom. apply is_fresh. }
    assert (a ≠ l) as Hal by (intros ->; congruence).
    assert (a ≠ u) as Hau by (intros ->; congruence).
    erewrite bind_ok; cycle 1.
    { erewrite bind_ok; [|reflexivity]. fold a.
      erewrite bind_ok; [|eapply getitem_dict; [|done|exact Hu]];
        [|simpl; by rewrite lookup_insert_ne].
      eapply setitem_dict; [|done]. simpl. by rewrite lookup_insert_ne. }
    erewrite bind_ok; cycle 1.
    { eapply getitem_dict; [|done|exact Hu]. simpl.
      rewrite !lookup_insert_ne by done. done. }
    erewrite bind_ok; cycle 1.
    { eapply getitem_dict; [|done|apply lookup_insert_eq]. simpl.
      by rewrite lookup_insert_eq. }
    eexists _, _. split.
    { eapply setitem_dict; [|apply row_item_hashable]. simpl.
      rewrite lookup_insert_ne by done. apply lookup_insert_eq. }
    simpl. exists d1, u, (<[VStr ch := VDict a]> m).
    rewrite (lookup_insert_ne _ a l) by done.
    rewrite (lookup_insert_ne _ u l) by done.
    rewrite (lookup_insert_ne _ a l) by done.
    rewrite (lookup_insert_ne _ a u) by done. rewrite lookup_insert_eq.
    repeat (split; [done|]).
    intros k b Hk. destruct (decide (k = VStr ch)) as [->|Hkne].
    + rewrite lookup_insert_eq in Hk. injection Hk as <-. split; [done|].
      rewrite lookup_insert_eq. eauto.
    + rewrite lookup_insert_ne in Hk by done.
      destruct (Hent k b Hk) as [? ?]. split; [done|].
      by do 3 apply is_Some_insert_heap.
Qed.

Lemma reverse_loop_kept (l : loc) (d : gmap val val) (query : list Row) (w : world) :
  response_kept l d (heap w) →
  ∃ res w',
    for_ query (λ r,
      char ← datasets_unihan.ucn_to_unicode (row_item r "char");
      unihan ← getitem (VDict l) "unihan";
      has ← contains char unihan;
      (if negb has then
         d0 ← new_dict;
         unihan ← getitem (VDict l) "unihan";
         setitem unihan char d0
       else mret ());;
      unihan ← getitem (VDict l) "unihan";
      entry ← getitem unihan char;
      setitem entry (row_item r "field") (row_item r "value")) w = (res, w')
    ∧ response_kept l d (heap w').
Proof.
  revert w. induction query as [|r query IH]; intros w Hkept.
  - by exists (Ok ()), w.
  - destruct (reverse_body_kept l d r w Hkept) as ([[]|e] & w1 & Hbody & Hkept1).
    + destruct (IH w1 Hkept1) as (res & w' & Hrest & Hkept').
      exists res, w'. split; [|done]. cbn [for_]. by erewrite bind_ok.
    + exists (Raise e), w1. split; [|done]. cbn [for_]. by erewrite bind_raise.
Qed.

(** However [reverse] ends, the response object is still there with its
    other keys as they were, and what it returns is that object. *)
Lemma reverse_run (w : world) (request : string) (l : loc) (d m0 : gmap val val)
    (fields : option (list string)) :
  installed w → heap w !! l = Some d → nested (heap w) l d m0 →
  entries_apart (heap w) l m0 →
  ∃ res w',
    datasets_unihan.reverse request (VDict l) (field_filter fields) w = (res, w')
    ∧ (∃ d', heap w' !! l = Some d' ∧ ∀ k, k ≠ VStr "unihan" → d' !! k = d !! k)
    ∧ (∀ v, res = Ok v → v = VDict l).
Proof.
  intros Hinst Hl Hnested Hent. unfold datasets_unihan.reverse.
  change (match field_filter fields with
          | Some fs => fs
          | None => map PSeq datasets_unihan.default_fields
          end) with (active_filter fields).
  rewrite query_stage; [|done|by rewrite existsb_app, active_filter_no_seq].
  set (query := datasets_unihan.reverse_statement _ _ _ _ _ _).
  cbn [ResultProxy_bool].
  assert (∃ res w1,
    (has ← contains "unihan" (VDict l);
     (if negb has then d0 ← new_dict; setitem (VDict l) "unihan" d0 else mret ());;
     for_ query (λ r,
       char ← datasets_unihan.ucn_to_unicode (row_item r "char");
       unihan ← getitem (VDict l) "unihan";
       has ← contains char unihan;
       (if negb has then
          d0 ← new_dict;
          unihan ← getitem (VDict l) "unihan";
          setitem unihan char d0
        else mret ());;
       unihan ← getitem (VDict l) "unihan";
       entry ← getitem unihan char;
       setitem entry (row_item r "field") (row_item r "value"))) w = (res, w1)
    ∧ response_kept l d (heap w1)) as (res & w1 & Hloop & Hkept1).
  { destruct Hnested as [[Hnone ->] | (u & Hu & Hne & Hm)].
    - set (u := fresh (dom (heap w))).
      assert (heap w !! u = None) as Hfresh.
      { apply not_elem_of_dom. apply is_fresh. }
      assert (u ≠ l) as Hne by (intros ->; congruence).
      erewrite bind_ok; [|by eapply contains_dict].
      rewrite Hnone. rewrite bool_decide_eq_false_2 by (by intros [? ?]). cbn [negb].
      erewrite bind_ok; cycle 1.
      { erewrite bind_ok; [|reflexivity]. fold u.
        eapply setitem_dict; [|done]. simpl. by rewrite lookup_insert_ne. }
      apply reverse_loop_kept.
      simpl. exists (<[VStr "unihan" := VDict u]> d), u, ∅.
      split; [apply lookup_insert_eq|].
      split; [intros k Hk; by rewrite lookup_insert_ne|].
      split; [apply lookup_insert_eq|]. split; [done|]. split.
      + rewrite lookup_insert_ne by congruence. apply lookup_insert_eq.
      + intros k a Hk. by rewrite lookup_empty in Hk.
    - erewrite bind_ok; [|by eapply contains_dict].
      rewrite Hu. rewrite bool_decide_eq_true_2 by eauto. cbn [negb].
      erewrite bind_ok; [|reflexivity].
      apply reverse_loop_kept. by exists d, u, m0. }
  destruct Hkept1 as (d1 & u & m & Hl1 & Hframe & Hu1 & Hne1 & Hm1 & _).
  destruct res as [[]|e].
  - erewrite bind_ok; [|exact Hloop].
    erewrite bind_ok; [|by eapply getitem_dict].
    erewrite bind_ok; [|by eapply truth_dict].
    destruct (negb (negb (bool_decide (m = ∅)))).
    + erewrite bind_ok; [|by eapply delitem_dict].
      eexists _, _. split; [reflexivity|]. simpl. rewrite lookup_insert_eq. split.
      * eexists. split; [done|]. intros k Hk. rewrite lookup_delete_ne by done.
        by apply Hframe.
      * by intros v [= <-].
    + erewrite bind_ok; [|reflexivity].
      eexists _, _. split; [reflexivity|]. split; [eauto|]. by intros v [= <-].
  - erewrite bind_raise; [|exact Hloop].
    eexists _, _. split; [reflexivity|]. split; [eauto|]. done.
Qed.

(** C9. [get] hands back the very dictionary object it was given, changed
    in place, and no key of it other than ['unihan'] is added, removed or
    rebound.  The same holds of [reverse] however it ends: returning, it
    returns that object, and returning or raising it leaves the other keys
    as they were. *)
Theorem get_frame (w : world) (request : string) (l : loc) (d m0 : gmap val val)
    (fields : option (list string)) :
  installed w → heap w !! l = Some d → nested (heap w) l d m0 →
  (∃ w' d',
     datasets_unihan.get request (VDict l) (field_filter fields) w = (Ok (VDict l), w')
     ∧ heap w' !! l = Some d'
     ∧ ∀ k, k ≠ VStr "unihan" → d' !! k = d !! k)
  ∧ (entries_apart (heap w) l m0 →
     ∀ res w',
       datasets_unihan.reverse request (VDict l) (field_filter fields) w = (res, w') →
       (∃ d', heap w' !! l = Some d' ∧ ∀ k, k ≠ VStr "unihan" → d' !! k = d !! k)
       ∧ ∀ v, res = Ok v → v = VDict l).
Proof.
  intros Hinst Hl Hnested. split.
  - destruct (get_run w request l d m0 fields Hinst Hl Hnested)
      as (w' & d' & Hrun & _ & _ & Hl' & Hframe & _).
    by exists w', d'.
  - intros Hent res w' Hrev.
    destruct (reverse_run w request l d m0 fields Hinst Hl Hnested Hent)
      as (res0 & w0 & Hrun & Hkept & Hres).
    rewrite Hrev in Hrun. injection Hrun as <- <-. done.
Qed.

Lemma get_frame_witness :
  ∃ w' d',
    datasets_unihan.get "好" (VDict example.response)
      (field_filter (Some ["kZVariant"])) example.installed_world
    = (Ok (VDict example.response), w')
    ∧ heap w' !! example.response = Some d'
    ∧ ∀ k, k ≠ VStr "unihan" → d' !! k = (∅ : gmap val val) !! k.
Proof.
  apply (get_frame example.installed_world "好" example.response ∅ ∅ (Some ["kZVariant"])).
  - apply installed_example.
  - vm_compute. reflexivity.
  - left. split; reflexivity.
Defined.

(** * Further properties *)

(** ** [flatten_datasets] *)

Lemma ascii_compare_N (a b : ascii) :
  Ascii.compare a b = N.compare (N_of_ascii a) (N_of_ascii b).
Proof. reflexivity. Qed.

Lemma string_compare_le_trans (s1 s2 s3 : string) :
  String.compare s1 s2 ≠ Gt → String.compare s2 s3 ≠ Gt → String.compare s1 s3 ≠ Gt.
Proof.
  revert s2 s3. induction s1 as [|a s1 IH]; intros [|b s2] [|c0 s3]; simpl; try done.
  rewrite !ascii_compare_N.
  destruct (N.compare_spec (N_of_ascii a) (N_of_ascii b)) as [Hab|Hab|Hab];
    destruct (N.compare_spec (N_of_ascii b) (N_of_ascii c0)) as [Hbc|Hbc|Hbc];
    destruct (N.compare_spec (N_of_ascii a) (N_of_ascii c0)) as [Hac|Hac|Hac];
    try done; try lia.
  apply IH.
Qed.

#[global] Instance str_le_trans : Transitive bootstrap.str_le.
Proof.
  intros s1 s2 s3. unfold bootstrap.str_le, String.leb. intros H12 H23.
  pose proof (string_compare_le_trans s1 s2 s3) as H.
  destruct (String.compare s1 s2), (String.compare s2 s3), (String.compare s1 s3);
    try done; exfalso; by apply H.
Qed.

#[global] Instance str_le_total : Total bootstrap.str_le.
Proof. intros s1 s2. apply String.leb_total. Qed.

#[global] Instance str_le_antisym : AntiSymm (=) bootstrap.str_le.
Proof. intros s1 s2. apply String.leb_antisym. Qed.



(** ** [create_table], [_create_table] and [is_bootstrapped] together *)

Lemma append_column_names (col : Column) (t : Table) (name : string) :
  name ∈ map c_name (t_columns (sqlalchemy.append_column col t))
  ↔ name = c_name col ∨ name ∈ map c_name (t_columns t).
Proof.
  unfold sqlalchemy.append_column.
  destruct (has_column (c_name col) t) eqn:E; simpl.
  - rewrite replace_column_names. apply has_column_elem in E. naive_solver.
  - rewrite map_app, elem_of_app. simpl. rewrite list_elem_of_singleton. naive_solver.
Qed.

Lemma foldl_append_column_names (names : list string) (t : Table) (name : string) :
  name ∈ map c_name (t_columns
    (foldl (λ t n, sqlalchemy.append_column (Column_ n (String_ 256)) t) t names))
  ↔ name ∈ names ∨ name ∈ map c_name (t_columns t).
Proof.
  revert t. induction names as [|n names IH]; intros t; simpl.
  - split; [by right|]. intros [H|H]; [inversion H | done].
  - rewrite IH, append_column_names, elem_of_cons. simpl. naive_solver.
Qed.

(** The column names of the table [create_table] registers. *)
Lemma create_table_new_names (columns : list string) (metadata_ metadata' : gmap string Table)
    (handle : string) :
  metadata_ !! bootstrap.TABLE_NAME = None →
  bootstrap.create_table columns metadata_ = Ok (handle, metadata') →
  ∃ table, metadata' !! bootstrap.TABLE_NAME = Some table
    ∧ ∀ name, name ∈ map c_name (t_columns table)
              ↔ name ∈ columns ∨ name = "char" ∨ name = "ucn".
Proof.
  intros Hnone Hct. unfold bootstrap.create_table in Hct. rewrite Hnone in Hct.
  set (t2 := foldl _ _ columns) in Hct.
  assert (∀ name, name ∈ map c_name (t_columns t2)
                  ↔ name ∈ columns ∨ name = "char" ∨ name = "ucn") as Hnames.
  { intros name. unfold t2. rewrite foldl_append_column_names, !append_column_names.
    simpl. rewrite elem_of_nil. naive_solver. }
  assert (has_column "char" t2 = true) as Hchar by (apply has_column_elem, Hnames; auto).
  assert (has_column "ucn" t2 = true) as Hucn by (apply has_column_elem, Hnames; auto).
  rewrite Index__ok in Hct by (simpl; by rewrite Hchar).
  rewrite Index__ok in Hct by (simpl; unfold has_column in *; simpl; by rewrite Hchar, Hucn).
  injection Hct as <- <-. eexists. split; [apply lookup_insert_eq|]. exact Hnames.
Qed.

Lemma is_bootstrapped_columns (manifest : list (string * list string))
    (metadata_ : gmap string Table) (install_dict : option (list (string * list string)))
    (table : Table) :
  metadata_ !! bootstrap.TABLE_NAME = Some table →
  (bootstrap.is_bootstrapped manifest metadata_ install_dict = true
   ↔ ∀ name, name ∈ map c_name (t_columns table)
       ↔ name ∈ bootstrap.flatten_datasets
                  (if bootstrap.falsy install_dict then manifest else default [] install_dict)
         ∨ name = "char" ∨ name = "ucn").
Proof.
  intros Ht. unfold bootstrap.is_bootstrapped. rewrite Ht.
  set (expected := if bootstrap.falsy install_dict then manifest else default [] install_dict).
  assert (∀ name, name ∈ bootstrap.flatten_datasets expected ++ bootstrap.DEFAULT_COLUMNS
                  ↔ name ∈ bootstrap.flatten_datasets expected ∨ name = "char" ∨ name = "ucn")
    as Hcols.
  { intros name. unfold bootstrap.DEFAULT_COLUMNS.
    rewrite elem_of_app, !elem_of_cons, elem_of_nil. naive_solver. }
  case_bool_decide as Heq.
  - split; [intros _ | done]. intros name. rewrite <- Hcols.
    rewrite <- !(elem_of_list_to_set (C := gset string)). by rewrite Heq.
  - split; [done|]. intros Hnames. exfalso. apply Heq. apply set_eq. intros name.
    rewrite !elem_of_list_to_set, Hcols. symmetry. apply Hnames.
Qed.

(** X2. On metadata without the table [is_bootstrapped] is false; once
    [create_table] has built the table from a list of columns it is true
    exactly when those columns and the expected field names are the same
    set, and so it is true for the flattened install dictionary itself. *)
Theorem create_table_then_is_bootstrapped
    (manifest : list (string * list string)) (columns : list string)
    (metadata_ metadata' : gmap string Table) (handle : string)
    (install_dict : option (list (string * list string))) :
  metadata_ !! bootstrap.TABLE_NAME = None →
  bootstrap.create_table columns metadata_ = Ok (handle, metadata') →
  let expected :=
    bootstrap.flatten_datasets
      (if bootstrap.falsy install_dict then manifest else default [] install_dict) in
  bootstrap.is_bootstrapped manifest metadata_ install_dict = false
  ∧ (bootstrap.is_bootstrapped manifest metadata' install_dict = true
     ↔ ∀ name, (name ∈ columns ∨ name = "char" ∨ name = "ucn")
               ↔ (name ∈ expected ∨ name = "char" ∨ name = "ucn"))
  ∧ (columns = expected → bootstrap.is_bootstrapped manifest metadata' install_dict = true).
Proof.
  intros Hnone Hct expected.
  destruct (create_table_new_names columns metadata_ metadata' handle Hnone Hct)
    as (table & Ht & Hnames).
  assert (bootstrap.is_bootstrapped manifest metadata' install_dict = true
          ↔ ∀ name, (name ∈ columns ∨ name = "char" ∨ name = "ucn")
                    ↔ (name ∈ expected ∨ name = "char" ∨ name = "ucn")) as Hiff.
  { rewrite (is_bootstrapped_columns manifest metadata' install_dict table Ht).
    fold expected. split; intros H name; specialize (H name).
    - by rewrite <- Hnames.
    - by rewrite Hnames. }
  split; [|split; [done|]].
  - unfold bootstrap.is_bootstrapped. by rewrite Hnone.
  - intros ->. by apply Hiff.
Qed.

Lemma create_table_then_is_bootstrapped_witness :
  bootstrap.is_bootstrapped [] ∅ (Some [("Unihan_Readings.txt", ["kMandarin"; "kDefinition"])])
  = false
  ∧ bootstrap.is_bootstrapped [] example.wide_metadata
      (Some [("Unihan_Readings.txt", ["kDefinition"])])
    = true.
Proof.
  destruct (create_table_then_is_bootstrapped [] ["kDefinition"] ∅ example.wide_metadata
              "Unihan" (Some [("Unihan_Readings.txt", ["kDefinition"])]))
    as (_ & _ & Htrue).
  - vm_compute. reflexivity.
  - vm_compute. reflexivity.
  - split; [vm_compute; reflexivity|]. apply Htrue. vm_compute. reflexivity.
Defined.

(** X3. The table that [_create_table], and with it [install], declares has
    no [ucn] column: from metadata without the table, [is_bootstrapped] stays
    false after [install], however it ends and whatever fields are
    expected. *)
Theorem install_is_not_bootstrapped
    (manifest : list (string * list string))
    (get_datafile : string → option (list string))
    (install_dict expected_dict : option (list (string * list string))) (w : world) :
  metadata w !! "Unihan" = None →
  bootstrap.is_bootstrapped manifest
    (metadata (datasets_unihan._create_table "Unihan" w).2) expected_dict = false
  ∧ bootstrap.is_bootstrapped manifest
      (metadata (datasets_unihan.install get_datafile install_dict w).2) expected_dict = false.
Proof.
  intros Hnone.
  assert (bootstrap.is_bootstrapped manifest
            (<["Unihan" := declared "Unihan" (table_of "Unihan" (metadata w))]> (metadata w))
            expected_dict = false) as Hlong.
  { apply not_true_is_false.
    rewrite (is_bootstrapped_columns manifest _ expected_dict _ (lookup_insert_eq _ _ _)).
    intros Hnames. specialize (Hnames "ucn").
    assert ("ucn" ∈ map c_name (t_columns
              (declared "Unihan" (table_of "Unihan" (metadata w))))) as Hin.
    { apply Hnames. auto. }
    unfold table_of in Hin. rewrite Hnone in Hin. vm_compute in Hin.
    set_solver. }
  split.
  - by rewrite _create_table_run.
  - destruct (datasets_unihan.csv_to_dictlists get_datafile ["char"; "field"; "value"]
                (map fst (effective install_dict))) as [data|e] eqn:Hdata.
    + by rewrite (install_run _ _ w data Hdata).
    + rewrite (install_raise _ _ w e Hdata). cbn [snd].
      unfold bootstrap.is_bootstrapped, bootstrap.TABLE_NAME. by rewrite Hnone.
Qed.

Lemma install_is_not_bootstrapped_witness :
  bootstrap.is_bootstrapped [] (metadata example.installed_world)
    (Some [("Unihan_Readings.txt", ["field"; "value"; "id"])]) = false.
Proof.
  apply (install_is_not_bootstrapped [] example.get_datafile example.install_dict
           (Some [("Unihan_Readings.txt", ["field"; "value"; "id"])]) example.new_world).
  vm_compute. reflexivity.
Defined.

(** ** What the look-ups do to the metadata and the store *)

Lemma quiet_ret {A} (a : A) : quiet (mret a : M A).
Proof. by intros w. Qed.

Lemma quiet_raise {A} (e : exn) : quiet (raise e : M A).
Proof. by intros w. Qed.

Lemma quiet_bind {A B} (m : M A) (f : A → M B) :
  quiet m → (∀ a, quiet (f a)) → quiet (m ≫= f).
Proof.
  intros Hm Hf w. unfold mbind, M_bind. specialize (Hm w).
  destruct (m w) as [[a|e] w1]; simpl in *.
  - destruct (Hf a w1) as [-> ->]. done.
  - done.
Qed.

Lemma quiet_for {A} (xs : list A) (body : A → M unit) :
  (∀ x, quiet (body x)) → quiet (for_ xs body).
Proof.
  intros Hbody. induction xs as [|x xs IH]; simpl.
  - apply quiet_ret.
  - apply quiet_bind; [apply Hbody | by intros _].
Qed.

Lemma quiet_deref (d : val) : quiet (deref d).
Proof. intros w. unfold deref. destruct d; try done. by destruct (heap w !! l). Qed.

Lemma quiet_store_dict (l : loc) (m : gmap val val) : quiet (store_dict l m).
Proof. by intros w. Qed.

Lemma quiet_new_dict : quiet new_dict.
Proof. by intros w. Qed.

Lemma quiet_contains (k d : val) : quiet (contains k d).
Proof.
  apply quiet_bind; [apply quiet_deref|]. intros [l m].
  destruct (hashable k); [apply quiet_ret | apply quiet_raise].
Qed.

Lemma quiet_getitem (d k : val) : quiet (getitem d k).
Proof.
  apply quiet_bind; [apply quiet_deref|]. intros [l m].
  destruct (hashable k); [|apply quiet_raise].
  destruct (m !! k); [apply quiet_ret | apply quiet_raise].
Qed.

Lemma quiet_setitem (d k v : val) : quiet (setitem d k v).
Proof.
  apply quiet_bind; [apply quiet_deref|]. intros [l m].
  destruct (hashable k); [apply quiet_store_dict | apply quiet_raise].
Qed.

Lemma quiet_delitem (d k : val) : quiet (delitem d k).
Proof.
  apply quiet_bind; [apply quiet_deref|]. intros [l m].
  destruct (hashable k); [|apply quiet_raise].
  destruct (m !! k); [apply quiet_store_dict | apply quiet_raise].
Qed.

Lemma quiet_truth (v : val) : quiet (truth v).
Proof.
  destruct v; try apply quiet_ret.
  apply quiet_bind; [apply quiet_deref|]. intros [l' m]. apply quiet_ret.
Qed.

Lemma quiet_c (table name : string) : quiet (W.c table name).
Proof. intros w. unfold W.c. by destruct (metadata w !! table). Qed.

Lemma quiet_execute (table : string) (columns : list string) (params : list param)
    (stmt : list Row → list Row) :
  quiet (W.execute table columns params stmt).
Proof.
  intros w. unfold W.execute. destruct (from_ table columns (engine w)); [|done].
  by destruct (existsb is_seq params).
Qed.

Lemma quiet_ucn_to_unicode (v : val) : quiet (datasets_unihan.ucn_to_unicode v).
Proof.
  unfold datasets_unihan.ucn_to_unicode. destruct v; try apply quiet_raise.
  destruct (conversion.ucn_to_unicode s); [apply quiet_ret | apply quiet_raise].
Qed.

Lemma after_Table {A} (name : string) (k : string → M A) (w : world) :
  (∀ table, quiet (k table)) →
  metadata ((W.Table name ≫= k) w).2 = Table_ name (metadata w)
  ∧ engine ((W.Table name ≫= k) w).2 = engine w.
Proof.
  intros Hk. unfold mbind, M_bind, W.Table.
  by destruct (Hk name (set_metadata (Table_ name (metadata w)) w)) as [-> ->].
Qed.

Ltac quiet_step :=
  first
    [ apply quiet_ret | apply quiet_raise | apply quiet_c | apply quiet_execute
    | apply quiet_contains | apply quiet_getitem | apply quiet_setitem
    | apply quiet_delitem | apply quiet_truth | apply quiet_new_dict
    | apply quiet_ucn_to_unicode
    | apply quiet_for; intros ?
    | apply quiet_bind; [|intros ?]
    | match goal with |- quiet (if ?b then _ else _) => destruct b end ].

(** X4. The look-ups never write to the store, whatever they are given and
    however they end; of the metadata they change nothing but to register
    an empty table under the name [Unihan] when there is none, so that every
    table the metadata held is still there, as it was. *)
Theorem lookups_leave_the_store
    (manifest : list (string * list string)) (request : string) (response : val)
    (kwargs_fields : option (list param)) (w : world) :
  let after_get := (datasets_unihan.get request response kwargs_fields w).2 in
  let after_reverse := (datasets_unihan.reverse request response kwargs_fields w).2 in
  let after_bootstrap_get := (bootstrap.get manifest request kwargs_fields w).2 in
  (engine after_get = engine w ∧ engine after_reverse = engine w
   ∧ engine after_bootstrap_get = engine w)
  ∧ (metadata after_get = Table_ "Unihan" (metadata w)
     ∧ metadata after_reverse = Table_ "Unihan" (metadata w)
     ∧ metadata after_bootstrap_get = Table_ "Unihan" (metadata w))
  ∧ ∀ name t, metadata w !! name = Some t → Table_ "Unihan" (metadata w) !! name = Some t.
Proof.
  intros after_get after_reverse after_bootstrap_get.
  assert (metadata after_get = Table_ "Unihan" (metadata w)
          ∧ engine after_get = engine w) as [Hg1 Hg2].
  { unfold after_get, datasets_unihan.get. apply after_Table. intros table.
    repeat quiet_step. }
  assert (metadata after_reverse = Table_ "Unihan" (metadata w)
          ∧ engine after_reverse = engine w) as [Hr1 Hr2].
  { unfold after_reverse, datasets_unihan.reverse. apply after_Table. intros table.
    repeat quiet_step. }
  assert (metadata after_bootstrap_get = Table_ "Unihan" (metadata w)
          ∧ engine after_bootstrap_get = engine w) as [Hb1 Hb2].
  { unfold after_bootstrap_get, bootstrap.get. apply after_Table. intros table.
    repeat quiet_step. }
  split; [done|]. split; [done|].
  intros name t Ht. unfold Table_.
  destruct (metadata w !! "Unihan") eqn:E; [done|].
  rewrite lookup_insert_ne; [done|]. intros <-. congruence.
Qed.

(** ** Looking up before the table is there *)

Lemma undeclared_stage {A} (w : world) (k : string → string → M A) :
  metadata w !! "Unihan" = None →
  (table ← W.Table "Unihan"; field ← W.c table "field"; k table field) w
  = (Raise AttributeError,
     set_metadata (<["Unihan" := mkTable "Unihan" [] []]> (metadata w)) w).
Proof.
  intros Hnone. erewrite bind_ok; [|reflexivity].
  erewrite bind_raise; [reflexivity|].
  unfold W.c, Table_. rewrite Hnone. simpl. by rewrite lookup_insert_eq.
Qed.

Lemma uncreated_stage {A} (w : world) (t : Table) (params : list param)
    (stmt : string → string → string → list Row → list Row) (k : list Row → M A) :
  metadata w !! "Unihan" = Some t → long_format t = true →
  engine w !! "Unihan" = None →
  (table ← W.Table "Unihan";
   field ← W.c table "field";
   value ← W.c table "value";
   char_ ← W.c table "char";
   query ← W.execute table [field; value; char_] params (stmt field value char_);
   k query) w
  = (Raise OperationalError, w).
Proof.
  intros Ht Hlf Hdb. apply long_format_columns in Hlf as (Hf & Hv & Hc).
  erewrite bind_ok; [|unfold W.Table, Table_; rewrite Ht; by rewrite set_metadata_id].
  erewrite bind_ok; [|unfold W.c, sqlalchemy.c; by rewrite Ht, Hf].
  erewrite bind_ok; [|unfold W.c, sqlalchemy.c; by rewrite Ht, Hv].
  erewrite bind_ok; [|unfold W.c, sqlalchemy.c; by rewrite Ht, Hc].
  erewrite bind_raise; [reflexivity|].
  unfold W.execute, from_. by rewrite Hdb.
Qed.

(** X5. A look-up made before the table is declared raises
    [AttributeError] at [table.c.field]: the response is not touched, and the
    metadata is left with an empty table of that name.  With the table
    declared but not created in the store it raises [OperationalError] and
    changes nothing. *)
Theorem lookup_before_install
    (manifest : list (string * list string)) (request : string) (response : val)
    (kwargs_fields : option (list param)) (w : world) :
  (metadata w !! "Unihan" = None →
   let w' := set_metadata (<["Unihan" := mkTable "Unihan" [] []]> (metadata w)) w in
   datasets_unihan.get request response kwargs_fields w = (Raise AttributeError, w')
   ∧ datasets_unihan.reverse request response kwargs_fields w = (Raise AttributeError, w')
   ∧ bootstrap.get manifest request kwargs_fields w = (Raise AttributeError, w')
   ∧ heap w' = heap w)
  ∧ (∀ t, metadata w !! "Unihan" = Some t → long_format t = true →
          engine w !! "Unihan" = None →
     datasets_unihan.get request response kwargs_fields w = (Raise OperationalError, w)
     ∧ datasets_unihan.reverse request response kwargs_fields w = (Raise OperationalError, w)
     ∧ bootstrap.get manifest request kwargs_fields w = (Raise OperationalError, w)).
Proof.
  split.
  - intros Hnone w'. repeat split.
    + unfold datasets_unihan.get. by rewrite undeclared_stage.
    + unfold datasets_unihan.reverse. by rewrite undeclared_stage.
    + unfold bootstrap.get. by rewrite undeclared_stage.
  - intros t Ht Hlf Hdb. repeat split.
    + unfold datasets_unihan.get. by rewrite (uncreated_stage w t).
    + unfold datasets_unihan.reverse. by rewrite (uncreated_stage w t).
    + unfold bootstrap.get. by rewrite (uncreated_stage w t).
Qed.

Lemma lookup_before_install_witness :
  (datasets_unihan.get "好" (VDict example.response) None example.new_world).1
  = Raise AttributeError
  ∧ (datasets_unihan.get "好" (VDict example.response) None
       (set_engine ∅ example.empty_world)).1
    = Raise OperationalError.
Proof.
  destruct (lookup_before_install [] "好" (VDict example.response) None example.new_world)
    as [Hundeclared _].
  destruct (lookup_before_install [] "好" (VDict example.response) None
              (set_engine ∅ example.empty_world)) as [_ Huncreated].
  split.
  - destruct Hundeclared as [-> _]; [vm_compute; reflexivity | reflexivity].
  - destruct (Huncreated (table_of "Unihan" (metadata example.empty_world)))
      as [-> _]; [vm_compute; reflexivity..| reflexivity].
Defined.

(** ** A filter of one name *)

Lemma and__one (f : string) (r : Row) :
  and_ (map (λ t (r0 : Row), eq_param (r0 !! "field") t) [PStr f]) r = Some true
  ↔ r !! "field" = Some (SText f).
Proof.
  unfold and_. simpl. unfold sql_eq. destruct (r !! "field") as [x|]; simpl.
  - case_bool_decide; simpl; naive_solver.
  - naive_solver.
Qed.

Lemma sql_eq_true (a : option sqlval) (x : sqlval) :
  sql_eq a (Some x) = Some true ↔ a = Some x.
Proof.
  unfold sql_eq. destruct a as [y|]; [|naive_solver].
  case_bool_decide; naive_solver.
Qed.

(** The two WHEREs of the statements under a filter of one name. *)
Lemma one_name_select (f : string) (cond : Row → option bool) (rs : list Row) :
  where_ cond
    (where_ (λ r : Row, sql_eq (r !! "field")
               (as_scalar (map (λ r : Row, r !! "field")
                  (where_ (and_ (map (λ t (r0 : Row), eq_param (r0 !! "field") t)
                                   [PStr f])) rs))))
       rs)
  = filter (λ r : Row, r !! "field" = Some (SText f) ∧ cond r = Some true) rs.
Proof.
  destruct (where_ (and_ (map (λ t (r0 : Row), eq_param (r0 !! "field") t) [PStr f])) rs)
    as [|r0 rest] eqn:Einner.
  - rewrite scalar_of_nothing. simpl. symmetry.
    induction rs as [|r rs IH]; [done|].
    unfold where_ in Einner. rewrite filter_cons in Einner.
    destruct (decide (and_ (map (λ t (r1 : Row), eq_param (r1 !! "field") t) [PStr f]) r
                      = Some true)) as [Hr|Hr]; [done|].
    rewrite filter_cons_False; [by apply IH|].
    intros [Hf _]. apply Hr. by apply and__one.
  - assert (r0 !! "field" = Some (SText f)) as Hr0.
    { apply and__one. assert (r0 ∈ r0 :: rest) as Hin by (by left).
      rewrite <- Einner in Hin. unfold where_ in Hin.
      by apply list_elem_of_filter in Hin as [? _]. }
    cbn [map as_scalar]. rewrite Hr0. unfold where_.
    rewrite list_filter_filter. apply list_filter_iff. intros r.
    rewrite sql_eq_true. naive_solver.
Qed.

(** X6. Under a filter of one field name the statements select what one
    expects of them: [get] the rows of that field whose value is the request,
    [reverse] the rows of that field whose value is LIKE the pattern, each
    row once and in stored order, with its [value], [char] and [field]. *)
Theorem one_name_statements (f request : string) (rs : list Row) :
  datasets_unihan.get_statement "field" "value" "char" [PStr f] request rs
  = W.project ["value"; "char"; "field"]
      <$> filter (λ r : Row, r !! "field" = Some (SText f)
                             ∧ r !! "value" = Some (SText request)) rs
  ∧ datasets_unihan.reverse_statement "field" "value" "char" [PStr f] request rs
    = W.project ["value"; "char"; "field"]
        <$> filter (λ r : Row, r !! "field" = Some (SText f)
                               ∧ sql_like (r !! "value") request = Some true) rs.
Proof.
  split.
  - unfold datasets_unihan.get_statement. cbv zeta. rewrite one_name_select. f_equal.
    apply list_filter_iff. intros r. by rewrite sql_eq_true.
  - unfold datasets_unihan.reverse_statement. cbv zeta. by rewrite one_name_select.
Qed.

Lemma fill_same (query : list Row) (k v : val) (m : gmap val val) :
  query ≠ [] →
  (∀ r, r ∈ query → row_item r "field" = k ∧ row_item r "value" = v) →
  fill query m = <[k := v]> m.
Proof.
  unfold fill. revert m. induction query as [|r query IH]; intros m Hne Hall; [done|].
  simpl. destruct (Hall r) as [-> ->]; [by left|].
  destruct query as [|r' query']; [done|].
  rewrite IH; [by rewrite insert_insert_eq | done |].
  intros r0 Hr0. apply Hall. by right.
Qed.

Lemma filter_nothing {A} (P : A → Prop) `{!∀ x, Decision (P x)} (xs : list A) :
  (∀ x, x ∈ xs → ¬ P x) → filter P xs = [].
Proof.
  induction xs as [|x xs IH]; intros Hall; [done|].
  rewrite filter_cons_False; [|apply Hall; by left].
  apply IH. intros x0 Hx0. apply Hall. by right.
Qed.

Lemma row_item_project (columns : list string) (r : Row) (k : string) :
  k ∈ columns → row_item (W.project columns r) k = row_item r k.
Proof. intros Hk. unfold row_item. by rewrite project_lookup. Qed.

(** X7. What [get] answers under a filter of one field name, on a response
    without a ['unihan'] key: when some stored row of that field holds the
    normalized request as its value, the response gains ['unihan'] with the
    one entry that maps the field to the request; when none does, the
    response comes back as it was. *)
Theorem get_one_name (w : world) (request f : string) (l : loc) (d : gmap val val) :
  installed w → heap w !! l = Some d → d !! VStr "unihan" = None →
  ((∃ r, r ∈ stored_rows w ∧ r !! "field" = Some (SText f)
         ∧ r !! "value" = Some (SText (normalized request))) →
   ∃ w' u,
     datasets_unihan.get request (VDict l) (Some [PStr f]) w = (Ok (VDict l), w')
     ∧ heap w' !! l = Some (<[VStr "unihan" := VDict u]> d)
     ∧ heap w' !! u = Some {[VStr f := VStr (normalized request)]})
  ∧ ((∀ r, r ∈ stored_rows w → r !! "field" = Some (SText f) →
           r !! "value" ≠ Some (SText (normalized request))) →
     ∃ w', datasets_unihan.get request (VDict l) (Some [PStr f]) w = (Ok (VDict l), w')
           ∧ heap w' !! l = Some d).
Proof.
  intros Hinst Hl Hnone.
  destruct (get_run w request l d ∅ (Some [f]) Hinst Hl) as
    (w' & d' & Hrun & _ & _ & Hl' & Hframe & Hempty & Hfull); [by left|].
  change (field_filter (Some [f])) with (Some [PStr f]) in Hrun.
  assert (get_query w request (Some [f])
          = W.project ["value"; "char"; "field"]
              <$> filter (λ r : Row, r !! "field" = Some (SText f)
                                     ∧ r !! "value" = Some (SText (normalized request)))
                    (stored_rows w)) as Hq.
  { unfold get_query. apply one_name_statements. }
  split.
  - intros (r & Hr & Hf & Hv).
    assert (fill (get_query w request (Some [f])) ∅
            = {[VStr f := VStr (normalized request)]}) as Hfill.
    { apply fill_same.
      - rewrite Hq. intros Hnil. apply fmap_nil_inv in Hnil.
        assert (r ∈ filter (λ r : Row, r !! "field" = Some (SText f)
                                       ∧ r !! "value" = Some (SText (normalized request)))
                      (stored_rows w)) as Hin by (by apply list_elem_of_filter).
        rewrite Hnil in Hin. inversion Hin.
      - intros r0. rewrite Hq. intros (r1 & -> & Hr1)%list_elem_of_fmap.
        apply list_elem_of_filter in Hr1 as [[Hf1 Hv1] _].
        rewrite !row_item_project by set_solver. unfold row_item.
        by rewrite Hf1, Hv1. }
    destruct Hfull as (u & Hu & _ & Hm).
    { rewrite Hfill. apply insert_non_empty. }
    exists w', u. split; [done|]. rewrite Hfill in Hm. split; [|done].
    rewrite Hl'. f_equal. apply map_eq. intros k.
    destruct (decide (k = VStr "unihan")) as [->|Hk].
    + by rewrite lookup_insert_eq.
    + rewrite lookup_insert_ne by done. by apply Hframe.
  - intros Hmiss. exists w'. split; [done|]. rewrite Hl'. f_equal.
    apply map_eq. intros k.
    destruct (decide (k = VStr "unihan")) as [->|Hk]; [|by apply Hframe].
    rewrite Hnone. apply Hempty. rewrite Hq.
    rewrite filter_nothing; [done|].
    intros r Hr [Hf Hv]. by apply (Hmiss r).
Qed.

Lemma get_one_name_witness :
  ∃ w' u,
    datasets_unihan.get "好" (VDict example.response) (Some [PStr "kZVariant"])
      example.installed_world = (Ok (VDict example.response), w')
    ∧ heap w' !! example.response = Some (<[VStr "unihan" := VDict u]> ∅)
    ∧ heap w' !! u = Some {[VStr "kZVariant" := VStr (normalized "好")]}.
Proof.
  destruct (get_one_name example.installed_world "好" "kZVariant" example.response ∅)
    as [Hhit _].
  - apply installed_example.
  - vm_compute. reflexivity.
  - vm_compute. reflexivity.
  - apply Hhit. eexists. split; [|split].
    + apply list_elem_of_lookup. exists 2%nat. vm_compute. reflexivity.
    + vm_compute. reflexivity.
    + vm_compute. reflexivity.
Defined.

(** ** The record of a data line *)

Lemma zip_lookup {V} (keys : list string) (vals : list V) (i : nat) (k : string) :
  NoDup keys → keys !! i = Some k →
  (list_to_map (pystr.zip keys vals) : gmap string V) !! k = vals !! i.
Proof.
  revert vals i. induction keys as [|k0 keys IH]; intros vals i Hnd Hi; [done|].
  apply NoDup_cons in Hnd as [Hk0 Hnd].
  destruct vals as [|v vals]; [by destruct i|].
  cbn [pystr.zip list_to_map foldr uncurry fst snd]. destruct i as [|i]; simpl in Hi.
  - injection Hi as ->. by rewrite lookup_insert_eq.
  - rewrite lookup_insert_ne.
    + change ((v :: vals) !! S i) with (vals !! i). by apply IH.
    + intros ->. apply Hk0. apply list_elem_of_lookup. eauto.
Qed.

Lemma zip_lookup_other {V} (keys : list string) (vals : list V) (k : string) :
  k ∉ keys → (list_to_map (pystr.zip keys vals) : gmap string V) !! k = None.
Proof.
  revert vals. induction keys as [|k0 keys IH]; intros vals Hk; [done|].
  apply not_elem_of_cons in Hk as [Hne Hk].
  destruct vals as [|v vals]; [done|].
  cbn [pystr.zip list_to_map foldr uncurry fst snd].
  rewrite lookup_insert_ne by done. by apply IH.
Qed.

(** X8. The record of a data line pairs the keys with the tab-delimited
    fields of the stripped line by position: the i-th key holds the i-th
    field, a key beyond the last field is left out (NULL when stored), a field
    beyond the last key is dropped, and no other key is set. *)
Theorem record_by_position (keys : list string) (l : string) :
  NoDup keys →
  (∀ i k, keys !! i = Some k →
          datasets_unihan.record keys l !! k
          = SText <$> pystr.split pystr.tab (pystr.strip l) !! i)
  ∧ (∀ k, k ∉ keys → datasets_unihan.record keys l !! k = None).
Proof.
  intros Hnd. unfold datasets_unihan.record. split.
  - intros i k Hi. rewrite (zip_lookup keys _ i k Hnd Hi). apply list_lookup_fmap.
  - intros k Hk. by apply zip_lookup_other.
Qed.

Lemma record_by_position_witness :
  datasets_unihan.record ["char"; "field"; "value"]
    (example.line ["U+597D"; "kDefinition"]) !! "value" = None
  ∧ datasets_unihan.record ["char"; "field"; "value"]
      (example.line ["U+597D"; "kDefinition"; "good"; "more"]) !! "value"
    = Some (SText "good").
Proof.
  split.
  - rewrite (proj1 (record_by_position ["char"; "field"; "value"]
                      (example.line ["U+597D"; "kDefinition"])
                      ltac:(apply (bool_decide_unpack _); vm_compute; exact I))
               2%nat "value" eq_refl).
    vm_compute. reflexivity.
  - rewrite (proj1 (record_by_position ["char"; "field"; "value"]
                      (example.line ["U+597D"; "kDefinition"; "good"; "more"])
                      ltac:(apply (bool_decide_unpack _); vm_compute; exact I))
               2%nat "value" eq_refl).
    vm_compute. reflexivity.
Defined.

(** ** [install]: failures while reading *)

Lemma FileInput_raises (get_datafile : string → option (list string))
    (csv_files : list string) (e : exn) :
  datasets_unihan.FileInput get_datafile csv_files = Raise e → e = IOError.
Proof.
  induction csv_files as [|f rest IH]; simpl; [done|].
  destruct (get_datafile f); [|by intros [= <-]].
  destruct (datasets_unihan.FileInput get_datafile rest); [done|].
  intros [= <-]. by apply IH.
Qed.

Lemma FileInput_missing (get_datafile : string → option (list string))
    (csv_files : list string) (f : string) :
  f ∈ csv_files → get_datafile f = None →
  datasets_unihan.FileInput get_datafile csv_files = Raise IOError.
Proof.
  intros Hf Hnone. induction csv_files as [|f0 rest IH]; [inversion Hf|]. simpl.
  destruct (get_datafile f0) as [ls|] eqn:E0; [|done].
  apply elem_of_cons in Hf as [-> | Hf]; [congruence|].
  by rewrite (IH Hf).
Qed.

(** X9. When a data file named by the install dictionary cannot be opened,
    [install] raises [IOError] before anything is declared or stored: the
    metadata, the store and the heap are as they were. *)
Theorem install_missing_file
    (get_datafile : string → option (list string))
    (install_dict : option (list (string * list string))) (f : string) (w : world) :
  f ∈ map fst (effective install_dict) → get_datafile f = None →
  datasets_unihan.install get_datafile install_dict w = (Raise IOError, w).
Proof.
  intros Hf Hnone. apply install_raise. unfold datasets_unihan.csv_to_dictlists.
  by rewrite (FileInput_missing _ _ f Hf Hnone).
Qed.

Lemma install_missing_file_witness :
  datasets_unihan.install example.get_datafile None example.new_world
  = (Raise IOError, example.new_world).
Proof.
  apply (install_missing_file example.get_datafile None "Unihan_Variants.txt").
  - apply (bool_decide_unpack _). vm_compute. exact I.
  - vm_compute. reflexivity.
Defined.

(** ** [install]: what a first run stores *)

Lemma max_rowid_from (k : string) (rs : list Row) (a : Z) :
  (0 ≤ a)%Z →
  foldr (λ r m, Z.max (rowid r k) m) a rs
  = Z.max (foldr (λ r m, Z.max (rowid r k) m) 0%Z rs) a.
Proof. intros Ha. induction rs as [|r rs IH]; simpl; [lia|]. rewrite IH. lia. Qed.

Lemma numbered_snoc (done : list Row) (d : Row) :
  numbered (done ++ [d])
  = numbered done ++ [<["id" := SInt (Z.of_nat (List.length done) + 1)]> d].
Proof. unfold numbered. rewrite imap_app. simpl. by rewrite Nat.add_0_r. Qed.

Lemma next_rowid_numbered (done : list Row) :
  next_rowid "id" (numbered done) = (Z.of_nat (List.length done) + 1)%Z.
Proof.
  induction done as [|d done IH] using rev_ind; [done|].
  rewrite numbered_snoc. unfold next_rowid in *. rewrite foldr_app. simpl.
  rewrite max_rowid_from by lia.
  assert (rowid (<["id" := SInt (Z.of_nat (List.length done) + 1)]> d) "id"
          = (Z.of_nat (List.length done) + 1)%Z) as ->.
  { unfold rowid. by rewrite lookup_insert_eq. }
  rewrite length_app. simpl. lia.
Qed.

Lemma elem_of_numbered (data : list Row) (r : Row) :
  r ∈ numbered data →
  ∃ (i : nat) (d : Row),
    data !! i = Some d ∧ r = <["id" := SInt (Z.of_nat i + 1)]> d.
Proof.
  unfold numbered. intros (i & d & -> & Hi)%elem_of_lookup_imap. eauto.
Qed.

Lemma declared_columns :
  t_columns (declared "Unihan" (mkTable "Unihan" [] []))
  = [Column_pk "id" Integer; Column_ "char" (String_ 12);
     Column_ "field" (String_ 36); Column_ "value" (String_ 256)].
Proof. reflexivity. Qed.

Lemma autoincrement_fresh (rel : Relation) (d : Row) :
  schema rel = declared "Unihan" (mkTable "Unihan" [] []) → d !! "id" = None →
  autoincrement rel d = <["id" := SInt (next_rowid "id" (rows rel))]> d.
Proof.
  intros Hs Hd. unfold autoincrement. by rewrite Hs, declared_primary_key, Hd.
Qed.

(** The rows of a bulk INSERT that is let in, from an empty table on. *)
Lemma insert_rows_numbered (todo done : list Row) (rel rel' : Relation) :
  schema rel = declared "Unihan" (mkTable "Unihan" [] []) →
  rows rel = numbered done →
  (∀ d, d ∈ todo → d !! "id" = None) →
  insert_rows rel todo = Ok rel' →
  rows rel' = numbered (done ++ todo).
Proof.
  revert done rel. induction todo as [|d todo IH]; intros done rel Hs Hr Hid; simpl.
  - intros [= <-]. by rewrite app_nil_r.
  - destruct (insert_row rel d) as [rel1|] eqn:E; [|done]. intros H.
    apply insert_row_inv in E as (Hs1 & r & Hr1 & Heq & _). subst r.
    rewrite (autoincrement_fresh rel d Hs) in Hr1 by (apply Hid; by left).
    rewrite Hr, next_rowid_numbered, <- numbered_snoc in Hr1.
    rewrite (IH (done ++ [d]) rel1); [by rewrite <- app_assoc|congruence|done| |done].
    intros d' Hd'. apply Hid. by right.
Qed.

(** A bulk INSERT of records with known columns fails on a constraint
    only. *)
Lemma insert_rows_raises (data : list Row) (rel : Relation) (e : exn) :
  (∀ d, d ∈ data → known_columns (schema rel) d = true) →
  insert_rows rel data = Raise e → e = IntegrityError.
Proof.
  revert rel. induction data as [|d data IH]; intros rel Hk; simpl; [done|].
  destruct (insert_row rel d) as [rel1|e1] eqn:E.
  - apply IH. intros d' Hd'. apply insert_row_inv in E as [-> _]. apply Hk. by right.
  - intros [= <-]. unfold insert_row in E. rewrite Hk in E by (by left).
    cbn [negb] in E.
    destruct (not_null_ok _ _ && unique_ok _ _ _); congruence.
Qed.

Lemma agree_insert (cols : list string) (k : string) (v1 v2 : sqlval) (r1 r2 : Row) :
  k ∉ cols → agree cols (<[k := v1]> r1) (<[k := v2]> r2) = agree cols r1 r2.
Proof.
  unfold agree. induction cols as [|c0 cols IH]; intros Hk; simpl; [done|].
  apply not_elem_of_cons in Hk as [Hne Hk]. rewrite IH by done.
  by rewrite !lookup_insert_ne by done.
Qed.

Lemma agree_app (cols1 cols2 : list string) (r1 r2 : Row) :
  agree (cols1 ++ cols2) r1 r2 = agree cols1 r1 r2 && agree cols2 r1 r2.
Proof. unfold agree. apply forallb_app. Qed.

Lemma existsb_none {A} (f : A → bool) (l : list A) :
  (∀ x, x ∈ l → f x = false) → existsb f l = false.
Proof.
  induction l as [|x l IH]; intros H; simpl; [done|].
  rewrite H by (by left). rewrite IH; [done|]. intros y Hy. apply H. by right.
Qed.

Lemma forallb_false_elem {A} (f : A → bool) (l : list A) :
  forallb f l = false → ∃ x, x ∈ l ∧ f x = false.
Proof.
  induction l as [|x l IH]; simpl; [done|].
  destruct (f x) eqn:E.
  - intros H. destruct (IH H) as (y & Hy & Hf). exists y. split; [by right|done].
  - intros _. exists x. split; [by left|done].
Qed.

Lemma apart_on_lookup (cols : list string) (data : list Row) (i j : nat) (di dj : Row) :
  apart_on cols data = true →
  data !! i = Some di → data !! j = Some dj → agree cols di dj = true → i = j.
Proof.
  revert i j. induction data as [|d data IH]; intros i j Hap Hi Hj Hag; [done|].
  simpl in Hap. apply andb_prop in Hap as [Hhd Htl].
  rewrite forallb_forall in Hhd.
  destruct i as [|i], j as [|j]; simpl in Hi, Hj; [done| | |].
  - injection Hi as ->.
    assert (In dj data) as Hin by (apply list_elem_of_In, list_elem_of_lookup; eauto).
    specialize (Hhd _ Hin). by rewrite Hag in Hhd.
  - injection Hj as ->.
    assert (In di data) as Hin by (apply list_elem_of_In, list_elem_of_lookup; eauto).
    specialize (Hhd _ Hin). by rewrite agree_sym, Hag in Hhd.
  - f_equal. by apply IH.
Qed.

Lemma apart_on_false (cols : list string) (data : list Row) :
  apart_on cols data = false →
  ∃ (i j : nat) (di dj : Row),
    i ≠ j ∧ data !! i = Some di ∧ data !! j = Some dj ∧ agree cols di dj = true.
Proof.
  induction data as [|d data IH]; simpl; [done|].
  intros [H | H]%andb_false_iff.
  - apply forallb_false_elem in H as (d' & Hd' & Hag).
    apply negb_false_iff in Hag.
    apply list_elem_of_lookup in Hd' as [j Hj].
    exists 0%nat, (S j), d, d'. done.
  - destruct (IH H) as (i & j & di & dj & Hne & Hi & Hj & Hag).
    exists (S i), (S j), di, dj. split; [lia|done].
Qed.

(** One more record is let in when it collides with none of those stored. *)
Lemma insert_row_let_in (done : list Row) (d : Row) (rel : Relation) :
  schema rel = declared "Unihan" (mkTable "Unihan" [] []) →
  rows rel = numbered done →
  d !! "id" = None →
  known_columns (declared "Unihan" (mkTable "Unihan" [] [])) d = true →
  (∀ d', d' ∈ done → agree ["char"; "field"] d d' = false) →
  insert_row rel d
  = Ok (mkRelation (declared "Unihan" (mkTable "Unihan" [] [])) (numbered (done ++ [d]))).
Proof.
  intros Hs Hr Hid Hk Hap. unfold insert_row.
  rewrite (autoincrement_fresh rel d Hs Hid), Hs, Hk, Hr, next_rowid_numbered.
  cbn [negb]. set (n := (Z.of_nat (List.length done) + 1)%Z).
  assert (not_null_ok (declared "Unihan" (mkTable "Unihan" [] [])) (<["id" := SInt n]> d)
          = true) as ->.
  { unfold not_null_ok. rewrite declared_columns.
    cbn [forallb Column_pk Column_ c_nullable c_name orb].
    rewrite lookup_insert_eq. by rewrite bool_decide_eq_true_2 by eauto. }
  assert (unique_ok (declared "Unihan" (mkTable "Unihan" [] [])) (numbered done)
            (<["id" := SInt n]> d) = true) as ->.
  { unfold unique_ok. rewrite declared_primary_key, declared_indexes.
    cbn [map c_name forallb i_unique i_columns negb orb].
    assert (existsb (agree ["id"] (<["id" := SInt n]> d)) (numbered done) = false) as ->.
    { apply existsb_none. intros r' (i & d' & Hi & ->)%elem_of_numbered.
      apply lookup_lt_Some in Hi. unfold agree. simpl. rewrite !lookup_insert_eq.
      rewrite bool_decide_eq_false_2; [done|]. unfold n. intros [= H]. lia. }
    assert (∀ r', r' ∈ numbered done →
                  agree ["char"; "field"] (<["id" := SInt n]> d) r' = false) as Hpair.
    { intros r' (i & d' & Hi & ->)%elem_of_numbered.
      rewrite agree_insert by set_solver. apply Hap, list_elem_of_lookup. eauto. }
    assert (existsb (agree ["char"; "field"; "value"] (<["id" := SInt n]> d))
              (numbered done) = false) as ->.
    { apply existsb_none. intros r' Hr'.
      change ["char"; "field"; "value"] with (["char"; "field"] ++ ["value"]).
      by rewrite agree_app, (Hpair r' Hr'). }
    assert (existsb (agree ["char"; "field"] (<["id" := SInt n]> d))
              (numbered done) = false) as ->.
    { by apply existsb_none. }
    done. }
  cbn [andb]. by rewrite numbered_snoc.
Qed.

Lemma insert_rows_apart (todo done : list Row) (rel : Relation) :
  schema rel = declared "Unihan" (mkTable "Unihan" [] []) →
  rows rel = numbered done →
  (∀ d, d ∈ todo → d !! "id" = None
                   ∧ known_columns (declared "Unihan" (mkTable "Unihan" [] [])) d = true) →
  apart_on ["char"; "field"] (done ++ todo) = true →
  insert_rows rel todo
  = Ok (mkRelation (declared "Unihan" (mkTable "Unihan" [] [])) (numbered (done ++ todo))).
Proof.
  revert done rel. induction todo as [|d todo IH]; intros done rel Hs Hr Hd Hap; simpl.
  - rewrite app_nil_r, <- Hs, <- Hr. by destruct rel.
  - destruct (Hd d) as [Hid Hk]; [by left|].
    rewrite (insert_row_let_in done d rel Hs Hr Hid Hk); cycle 1.
    { intros d' [i Hi]%list_elem_of_lookup.
      destruct (agree ["char"; "field"] d d') eqn:Hag; [|done].
      assert (List.length done = i); [|apply lookup_lt_Some in Hi; lia].
      apply (apart_on_lookup _ _ _ _ d d' Hap); [|by apply lookup_app_l_Some|done].
      by rewrite list_lookup_middle. }
    rewrite (IH (done ++ [d])); [by rewrite <- app_assoc|done|done| |by rewrite <- app_assoc].
    intros d' Hd'. apply Hd. by right.
Qed.

(** The records of the data files have the three keys at most. *)
Lemma record_columns (l : string) :
  datasets_unihan.record ["char"; "field"; "value"] l !! "id" = None
  ∧ known_columns (declared "Unihan" (mkTable "Unihan" [] []))
      (datasets_unihan.record ["char"; "field"; "value"] l) = true.
Proof.
  assert (∀ k, k ∉ ["char"; "field"; "value"] →
               datasets_unihan.record ["char"; "field"; "value"] l !! k = None) as Hout.
  { intros k Hk. unfold datasets_unihan.record. by apply zip_lookup_other. }
  split; [apply Hout; set_solver|].
  unfold known_columns. apply forallb_forall. intros k Hk.
  apply list_elem_of_In, list_elem_of_fmap in Hk as ([k' v] & -> & Hkv).
  apply elem_of_map_to_list in Hkv. simpl.
  destruct (decide (k' ∈ ["char"; "field"; "value"])) as [Hin|Hnin].
  - repeat (apply elem_of_cons in Hin as [-> | Hin]; [reflexivity|]). inversion Hin.
  - rewrite (Hout k' Hnin) in Hkv. done.
Qed.

(** [install] from a state that has no [Unihan] table, once the data files
    are read. *)
Lemma install_fresh (get_datafile : string → option (list string))
    (install_dict : option (list (string * list string))) (w : world) (data : list Row) :
  metadata w !! "Unihan" = None → engine w !! "Unihan" = None →
  datasets_unihan.csv_to_dictlists get_datafile ["char"; "field"; "value"]
    (map fst (effective install_dict)) = Ok data →
  let LT := declared "Unihan" (mkTable "Unihan" [] []) in
  let md1 := <["Unihan" := LT]> (metadata w) in
  let db1 := create_all md1 (engine w) in
  db1 !! "Unihan" = Some (mkRelation LT [])
  ∧ datasets_unihan.install get_datafile install_dict w
    = match insert_rows (mkRelation LT []) data with
      | Ok rel1 => (Ok "Unihan", mkWorld (heap w) md1 (<["Unihan" := rel1]> db1))
      | Raise e => (Raise e, mkWorld (heap w) md1 db1)
      end.
Proof.
  intros Hmd Hen Hdata LT md1 db1.
  assert (db1 !! "Unihan" = Some (mkRelation LT [])) as Hrel0.
  { apply create_all_lookup_new; [done|]. apply lookup_insert_eq. }
  split; [done|].
  rewrite (install_run _ _ w data Hdata).
  unfold table_of. rewrite Hmd. cbn [default]. fold LT md1 db1.
  unfold sqlalchemy.execute_insert. rewrite Hrel0.
  by destruct (insert_rows (mkRelation LT []) data).
Qed.

Lemma csv_records (get_datafile : string → option (list string))
    (csv_files : list string) (data : list Row) (d : Row) :
  datasets_unihan.csv_to_dictlists get_datafile ["char"; "field"; "value"] csv_files
  = Ok data →
  d ∈ data →
  d !! "id" = None
  ∧ known_columns (declared "Unihan" (mkTable "Unihan" [] [])) d = true.
Proof.
  unfold datasets_unihan.csv_to_dictlists.
  destruct (datasets_unihan.FileInput get_datafile csv_files) as [combine|]; [|done].
  intros Hdata Hd.
  destruct (comprehension_elem _ combine data d Hdata Hd) as (l & _ & _ & ->).
  apply record_columns.
Qed.

(** X10. A first [install] (no [Unihan] table declared or stored) over data
    files with at least one record, whose records hold the three fields and
    of which no two have the same [char] and [field], returns the table and
    stores exactly the records of the kept lines, in the order of the
    files, numbered from 1 by the [id] column; the heap is as it was. *)
Theorem install_stores
    (get_datafile : string → option (list string))
    (install_dict : option (list (string * list string))) (w : world) (data : list Row) :
  metadata w !! "Unihan" = None → engine w !! "Unihan" = None →
  datasets_unihan.csv_to_dictlists get_datafile ["char"; "field"; "value"]
    (map fst (effective install_dict)) = Ok data →
  data ≠ [] → complete data →
  apart_on ["char"; "field"] data = true →
  ∃ w', datasets_unihan.install get_datafile install_dict w = (Ok "Unihan", w')
        ∧ heap w' = heap w
        ∧ stored_rows w' = numbered data.
Proof.
  intros Hmd Hen Hdata _ _ Hap.
  destruct (install_fresh _ _ w data Hmd Hen Hdata) as [_ ->].
  rewrite (insert_rows_apart data [] (mkRelation _ [])); [|done|done| |done].
  - eexists. split; [done|]. split; [done|].
    unfold stored_rows. simpl. by rewrite lookup_insert_eq.
  - intros d Hd. exact (csv_records _ _ data d Hdata Hd).
Qed.

Lemma install_stores_witness :
  ∃ w', datasets_unihan.install example.get_datafile example.install_dict
          example.new_world = (Ok "Unihan", w')
        ∧ heap w' = heap example.new_world
        ∧ stored_rows w'
          = numbered (datasets_unihan.record ["char"; "field"; "value"]
                        <$> drop 2 example.readings).
Proof.
  apply (install_stores example.get_datafile example.install_dict example.new_world).
  - vm_compute. reflexivity.
  - vm_compute. reflexivity.
  - vm_compute. reflexivity.
  - discriminate.
  - apply (bool_decide_unpack _). vm_compute. exact I.
  - vm_compute. reflexivity.
Defined.

(** X11. A first [install] over data files that hold two records with the
    same [char] and [field] raises [IntegrityError] and stores no row at
    all, whatever the values and wherever the two lines are: the table is
    declared and created, and left empty. *)
Theorem install_collision
    (get_datafile : string → option (list string))
    (install_dict : option (list (string * list string))) (w : world) (data : list Row) :
  metadata w !! "Unihan" = None → engine w !! "Unihan" = None →
  datasets_unihan.csv_to_dictlists get_datafile ["char"; "field"; "value"]
    (map fst (effective install_dict)) = Ok data →
  complete data →
  apart_on ["char"; "field"] data = false →
  ∃ w', datasets_unihan.install get_datafile install_dict w = (Raise IntegrityError, w')
        ∧ heap w' = heap w
        ∧ engine w' !! "Unihan"
          = Some (mkRelation (declared "Unihan" (mkTable "Unihan" [] [])) [])
        ∧ stored_rows w' = [].
Proof.
  intros Hmd Hen Hdata _ Hap.
  destruct (install_fresh _ _ w data Hmd Hen Hdata) as [Hrel0 ->].
  set (LT := declared "Unihan" (mkTable "Unihan" [] [])) in *.
  assert (∀ d, d ∈ data → d !! "id" = None ∧ known_columns LT d = true) as Hrec.
  { intros d Hd. exact (csv_records _ _ data d Hdata Hd). }
  destruct (insert_rows (mkRelation LT []) data) as [rel1|e] eqn:Hins.
  - exfalso.
    apply apart_on_false in Hap as (i & j & di & dj & Hne & Hi & Hj & Hag).
    pose proof (insert_rows_numbered data [] (mkRelation LT []) rel1 eq_refl eq_refl
                  (λ d Hd, proj1 (Hrec d Hd)) Hins) as Hrows.
    simpl in Hrows. apply Hne.
    apply (reachable_unique_index LT
             (mkIndex "Unihan_unique_char_field" ["char"; "field"] true) rel1)
      with (r1 := <["id" := SInt (Z.of_nat i + 1)]> di)
           (r2 := <["id" := SInt (Z.of_nat j + 1)]> dj).
    + unfold LT. rewrite declared_indexes. set_solver.
    + done.
    + apply (insert_rows_reachable LT (mkRelation LT []) data); [constructor|done].
    + rewrite Hrows. unfold numbered. by rewrite list_lookup_imap, Hi.
    + rewrite Hrows. unfold numbered. by rewrite list_lookup_imap, Hj.
    + cbn [i_columns]. by rewrite agree_insert by set_solver.
  - assert (e = IntegrityError) as ->.
    { apply (insert_rows_raises data (mkRelation LT [])); [|done].
      intros d Hd. by apply Hrec. }
    eexists. split; [done|]. split; [done|]. split; [done|].
    unfold stored_rows. simpl. by rewrite Hrel0.
Qed.

Lemma install_collision_witness :
  ∃ w', datasets_unihan.install clash.get_datafile example.install_dict
          example.new_world = (Raise IntegrityError, w')
        ∧ heap w' = heap example.new_world
        ∧ engine w' !! "Unihan"
          = Some (mkRelation (declared "Unihan" (mkTable "Unihan" [] [])) [])
        ∧ stored_rows w' = [].
Proof.
  apply (install_collision clash.get_datafile example.install_dict example.new_world
           (datasets_unihan.record ["char"; "field"; "value"] <$> clash.readings)).
  - vm_compute. reflexivity.
  - vm_compute. reflexivity.
  - vm_compute. reflexivity.
  - apply (bool_decide_unpack _). vm_compute. exact I.
  - vm_compute. reflexivity.
Defined.

(** ** Look-ups after [install] *)





(** ** [Unihan.with_fields] and [Unihan.lookup_char] *)

Lemma with_fields_from (q : unihan.Query) (fields : list string) :
  foldl (λ query field, unihan.filter_ query field (unihan.isnot_None field)) q fields
  = unihan.mkQuery (unihan.q_columns q ++ fields)
      (unihan.q_criteria q ++ map unihan.isnot_None fields).
Proof.
  revert q. induction fields as [|f fields IH]; intros q; simpl.
  - rewrite !app_nil_r. by destruct q.
  - rewrite IH. unfold unihan.filter_. simpl. by rewrite <- !app_assoc.
Qed.

Lemma and__isnot_None (fields : list string) (r : Row) :
  and_ (map unihan.isnot_None fields) r = Some true
  ↔ Forall (λ f, is_Some (r !! f)) fields.
Proof.
  unfold and_. induction fields as [|f fields IH]; simpl.
  - split; [constructor | done].
  - rewrite Forall_cons, <- IH. unfold unihan.isnot_None at 1.
    case_bool_decide as Hf.
    + destruct (foldr _ _ _) as [[]|]; naive_solver.
    + destruct (foldr _ _ _) as [[]|]; naive_solver.
Qed.

(** X13. The query [with_fields] builds, run on a table that has the named
    columns, yields exactly the stored rows that hold a value (not NULL) in
    every one of the fields, in stored order; so the order of the fields
    and their repetition do not matter, and without fields it yields every
    row. *)
Theorem with_fields_selects (fields : list string) (db : Database) (rel : Relation) :
  db !! "Unihan" = Some rel →
  Forall (λ f, has_column f (schema rel) = true) fields →
  unihan.all (unihan.with_fields fields) db
  = Ok (filter (λ r, Forall (λ f, is_Some (r !! f)) fields) (rows rel))
  ∧ unihan.all (unihan.with_fields []) db = Ok (rows rel)
  ∧ ∀ fields', (∀ f, f ∈ fields ↔ f ∈ fields') →
               unihan.all (unihan.with_fields fields') db
               = unihan.all (unihan.with_fields fields) db.
Proof.
  intros Hrel Hcols.
  assert (∀ fs, Forall (λ f, has_column f (schema rel) = true) fs →
                unihan.all (unihan.with_fields fs) db
                = Ok (filter (λ r, Forall (λ f, is_Some (r !! f)) fs) (rows rel))) as Hrun.
  { intros fs Hfs. unfold unihan.with_fields, unihan.all. rewrite with_fields_from.
    cbn [unihan.q_columns unihan.q_criteria unihan.query app].
    unfold from_. rewrite Hrel.
    assert (forallb (λ k, has_column k (schema rel)) fs = true) as ->.
    { apply forallb_forall. intros f Hf. rewrite Forall_forall in Hfs.
      by apply Hfs, list_elem_of_In. }
    f_equal. unfold where_. apply list_filter_iff. intros r. apply and__isnot_None. }
  split; [by apply Hrun|]. split.
  - rewrite (Hrun [] (Forall_nil_2 _)). f_equal. clear Hrun.
    induction (rows rel) as [|r rs IH]; [done|].
    rewrite filter_cons_True by constructor. by rewrite IH.
  - intros fields' Hsame. rewrite (Hrun fields Hcols), Hrun; cycle 1.
    { rewrite Forall_forall in *. intros f Hf. by apply Hcols, Hsame. }
    f_equal. apply list_filter_iff. intros r. rewrite !Forall_forall.
    split; intros H f Hf; apply H; by apply Hsame.
Qed.

Lemma with_fields_selects_witness :
  unihan.all (unihan.with_fields ["kDefinition"; "ucn"])
    {["Unihan" := example.wide_rows_2]}
  = Ok (filter (λ r, Forall (λ f, is_Some (r !! f)) ["kDefinition"; "ucn"])
          (rows example.wide_rows_2)).
Proof.
  apply (with_fields_selects ["kDefinition"; "ucn"] {["Unihan" := example.wide_rows_2]}
           example.wide_rows_2).
  - vm_compute. reflexivity.
  - apply (bool_decide_unpack _). vm_compute. exact I.
Defined.

Lemma filter_at_most_one {A} (P : A → Prop) `{!∀ x, Decision (P x)} (l : list A) :
  (∀ (i j : nat) (x y : A), l !! i = Some x → l !! j = Some y → P x → P y → i = j) →
  (List.length (filter P l) ≤ 1)%nat.
Proof.
  induction l as [|x l IH]; intros Hone; simpl; [lia|].
  destruct (decide (P x)) as [Hx|Hx].
  - rewrite filter_cons_True by done.
    assert (filter P l = []) as ->; [|simpl; lia].
    apply filter_nothing. intros y Hy HPy.
    apply list_elem_of_lookup in Hy as [j Hj].
    specialize (Hone 0%nat (S j) x y eq_refl Hj Hx HPy). lia.
  - rewrite filter_cons_False by done. apply IH.
    intros i j a b Hi Hj Ha Hb.
    specialize (Hone (S i) (S j) a b Hi Hj Ha Hb). lia.
Qed.

(** X14. On a stored table that [bootstrap.create_table] declared, in any
    state reached by INSERTs, the query of [lookup_char] yields the stored
    rows whose [char] is the one looked up, and of these there is at most
    one. *)
Theorem lookup_char_at_most_one
    (columns : list string) (metadata metadata' : gmap string Table)
    (handle : string) (table : Table) (db : Database) (rel : Relation) (char : string) :
  metadata !! bootstrap.TABLE_NAME = None →
  bootstrap.create_table columns metadata = Ok (handle, metadata') →
  metadata' !! handle = Some table →
  db !! "Unihan" = Some rel → reachable table rel →
  unihan.all (unihan.lookup_char char) db
  = Ok (filter (λ r, r !! "char" = Some (SText char)) (rows rel))
  ∧ (List.length (filter (λ r, r !! "char" = Some (SText char)) (rows rel)) ≤ 1)%nat.
Proof.
  intros Hnone Hct Hlk Hrel Hreach.
  destruct (create_table_new columns metadata Hnone) as (table' & Heq & Hidx).
  pose proof Hct as Hct'. rewrite Heq in Hct'. injection Hct' as <- <-.
  pose proof Hlk as Hlk'. rewrite lookup_insert_eq in Hlk'. injection Hlk' as ->.
  split.
  - unfold unihan.all, unihan.lookup_char, unihan.filter_, from_.
    cbn [unihan.q_columns unihan.q_criteria unihan.query app]. rewrite Hrel.
    assert (has_column "char" (schema rel) = true) as Hchar.
    { rewrite (reachable_schema _ _ Hreach).
      destruct (create_table_new_names columns metadata _ _ Hnone Hct)
        as (table0 & Hlk0 & Hnames).
      rewrite Hlk in Hlk0. injection Hlk0 as <-.
      apply has_column_elem, Hnames. auto. }
    cbn [forallb]. rewrite Hchar. cbn [andb]. f_equal.
    unfold where_. apply list_filter_iff. intros r. unfold and_. simpl.
    destruct (r !! "char") as [v|]; simpl; [|done].
    case_bool_decide; naive_solver.
  - apply filter_at_most_one. intros i j r1 r2 Hi Hj H1 H2.
    apply (reachable_unique_column table "Unihan_unique_char" "char" rel) with
      (r1 := r1) (r2 := r2) (v := SText char); try done.
    rewrite Hidx. by left.
Qed.

Lemma wide_rows_reachable : reachable example.wide_table example.wide_rows_2.
Proof.
  apply (reachable_insert example.wide_table example.wide_rows_1
           (<["char" := SText "佳"]> (<["ucn" := SText "U+4F73"]>
              (<["kDefinition" := SText "good fortune"]> ∅)))).
  - apply (reachable_insert example.wide_table (mkRelation example.wide_table [])
             (<["char" := SText "好"]> (<["ucn" := SText "U+597D"]>
                (<["kDefinition" := SText "good"]> ∅)))).
    + constructor.
    + vm_compute. reflexivity.
  - vm_compute. reflexivity.
Qed.

Lemma lookup_char_at_most_one_witness :
  unihan.all (unihan.lookup_char "好") {["Unihan" := example.wide_rows_2]}
  = Ok (filter (λ r, r !! "char" = Some (SText "好")) (rows example.wide_rows_2)).
Proof.
  apply (lookup_char_at_most_one ["kDefinition"] ∅ example.wide_metadata "Unihan"
           example.wide_table {["Unihan" := example.wide_rows_2]} example.wide_rows_2 "好").
  - vm_compute. reflexivity.
  - vm_compute. reflexivity.
  - vm_compute. reflexivity.
  - vm_compute. reflexivity.
  - apply wide_rows_reachable.
Defined.

(** ** [Unihan.reverse] without a match *)

Lemma reverse_statement_no_match (fields : list param) (request : string) (rs : list Row) :
  Forall (λ r : Row, sql_like (r !! "value") request ≠ Some true) rs →
  datasets_unihan.reverse_statement "field" "value" "char" fields request rs = [].
Proof.
  intros Hno. unfold datasets_unihan.reverse_statement. cbn zeta.
  rewrite where__nil_intro; [done|].
  intros r Hr. unfold where_ in Hr. apply list_elem_of_filter in Hr as [_ Hr].
  rewrite Forall_forall in Hno. by apply Hno.
Qed.

(** X15. A reverse look-up whose pattern no stored value is LIKE is no
    error, whatever the [fields] filter: on an installed database [reverse]
    returns the response object it was given, and a response that had no
    ['unihan'] key comes back as it was; the store is not touched. *)
Theorem reverse_no_match (w : world) (request : string) (l : loc) (d : gmap val val)
    (fields : option (list string)) :
  installed w → heap w !! l = Some d → d !! VStr "unihan" = None →
  Forall (λ r : Row, sql_like (r !! "value") request ≠ Some true) (stored_rows w) →
  ∃ w', datasets_unihan.reverse request (VDict l) (field_filter fields) w
          = (Ok (VDict l), w')
        ∧ heap w' !! l = Some d
        ∧ metadata w' = metadata w ∧ engine w' = engine w.
Proof.
  intros Hinst Hl Hnone Hno. unfold datasets_unihan.reverse.
  change (match field_filter fields with
          | Some fs => fs
          | None => map PSeq datasets_unihan.default_fields
          end) with (active_filter fields).
  rewrite query_stage; [|done|by rewrite existsb_app, active_filter_no_seq].
  rewrite (reverse_statement_no_match _ _ _ Hno).
  cbn [ResultProxy_bool for_].
  set (u := fresh (dom (heap w))).
  assert (u ≠ l) as Hne.
  { intros Heq. apply (is_fresh (dom (heap w))). fold u. rewrite Heq.
    apply elem_of_dom. by exists d. }
  erewrite bind_ok; cycle 1.
  { erewrite bind_ok; [|by eapply contains_dict].
    rewrite Hnone. rewrite bool_decide_eq_false_2 by (by intros [? ?]). cbn [negb].
    erewrite bind_ok; cycle 1.
    { erewrite bind_ok; [|reflexivity]. fold u.
      eapply setitem_dict; [|done]. simpl. by rewrite lookup_insert_ne. }
    reflexivity. }
  erewrite bind_ok; cycle 1.
  { eapply getitem_dict; [simpl; apply lookup_insert_eq|done|apply lookup_insert_eq]. }
  erewrite bind_ok; cycle 1.
  { eapply truth_dict. simpl. rewrite lookup_insert_ne by done. apply lookup_insert_eq. }
  rewrite bool_decide_eq_true_2 by done. cbn [negb].
  erewrite bind_ok; cycle 1.
  { eapply delitem_dict; [simpl; apply lookup_insert_eq|done|apply lookup_insert_eq]. }
  eexists. split; [reflexivity|]. simpl. rewrite lookup_insert_eq.
  split; [|done]. f_equal. rewrite delete_insert_eq. by apply delete_id.
Qed.

Lemma reverse_no_match_witness :
  ∃ w', datasets_unihan.reverse "bad%" (VDict example.response)
          (field_filter (Some ["kDefinition"])) example.installed_world
          = (Ok (VDict example.response), w')
        ∧ heap w' !! example.response = Some ∅
        ∧ metadata w' = metadata example.installed_world
        ∧ engine w' = engine example.installed_world.
Proof.
  apply (reverse_no_match example.installed_world "bad%" example.response ∅
           (Some ["kDefinition"])).
  - apply installed_example.
  - vm_compute. reflexivity.
  - vm_compute. reflexivity.
  - apply (bool_decide_unpack _). vm_compute. exact I.
Defined.

(** ** [Unihan.get], called again *)

Lemma fill_snoc (query : list Row) (r : Row) (m : gmap val val) :
  fill (query ++ [r]) m = <[row_item r "field" := row_item r "value"]> (fill query m).
Proof. unfold fill. by rewrite foldl_app. Qed.

Lemma fill_lookup (query : list Row) (m : gmap val val) (k : val) :
  fill query m !! k
  = match fill query ∅ !! k with
    | Some v => Some v
    | None => m !! k
    end.
Proof.
  induction query as [|r query IH] using rev_ind; [done|].
  rewrite !fill_snoc. destruct (decide (row_item r "field" = k)) as [->|Hne].
  - by rewrite !lookup_insert_eq.
  - by rewrite !lookup_insert_ne.
Qed.

Lemma fill_twice (query : list Row) (m : gmap val val) :
  fill query (fill query m) = fill query m.
Proof.
  apply map_eq. intros k. rewrite (fill_lookup query (fill query m)).
  rewrite (fill_lookup query m). by destruct (fill query ∅ !! k).
Qed.

Lemma fill_empty (query : list Row) (m : gmap val val) :
  fill query m = ∅ → query = [] ∧ m = ∅.
Proof.
  destruct query as [|r query _] using rev_ind; [done|].
  rewrite fill_snoc. intros H. by apply insert_non_empty in H.
Qed.

Lemma installed_same (w w' : world) :
  metadata w' = metadata w → engine w' = engine w → installed w → installed w'.
Proof. unfold installed. by intros -> ->. Qed.

(** X16. [get] is idempotent on the response: on an installed database, a
    second call with the same request and filter on the response the first
    call returned succeeds as well and leaves under ['unihan'] the mapping
    the first call left (or, as the first, no such key), and the other keys
    of the response as they were. *)
Theorem get_twice (w : world) (request : string) (l : loc) (d m0 : gmap val val)
    (fields : option (list string)) :
  installed w → heap w !! l = Some d → nested (heap w) l d m0 →
  ∃ w1 w2,
    datasets_unihan.get request (VDict l) (field_filter fields) w = (Ok (VDict l), w1)
    ∧ datasets_unihan.get request (VDict l) (field_filter fields) w1 = (Ok (VDict l), w2)
    ∧ unihan_entry w2 l = unihan_entry w1 l
    ∧ ∃ d1 d2, heap w1 !! l = Some d1 ∧ heap w2 !! l = Some d2
               ∧ ∀ k, k ≠ VStr "unihan" → d2 !! k = d1 !! k.
Proof.
  intros Hinst Hl Hnested.
  destruct (get_run w request l d m0 fields Hinst Hl Hnested) as
    (w1 & d1 & Hget1 & Hmd1 & Hen1 & Hl1 & Hframe1 & Hempty1 & Hfull1).
  pose proof (installed_same w w1 Hmd1 Hen1 Hinst) as Hinst1.
  assert (get_query w1 request fields = get_query w request fields) as Hq.
  { unfold get_query, stored_rows. by rewrite Hen1. }
  set (query := get_query w request fields) in *.
  destruct (decide (fill query m0 = ∅)) as [E|E].
  - (* nothing selected, nothing there: the key is gone after either call *)
    destruct (fill_empty _ _ E) as [Hquery ->].
    pose proof (Hempty1 E) as Hnone1.
    destruct (get_run w1 request l d1 ∅ fields Hinst1 Hl1) as
      (w2 & d2 & Hget2 & _ & _ & Hl2 & Hframe2 & Hempty2 & _); [by left|].
    rewrite Hq in Hempty2. specialize (Hempty2 E).
    exists w1, w2. split; [done|]. split; [done|]. split.
    + unfold unihan_entry. by rewrite Hl1, Hl2, Hnone1, Hempty2.
    + by exists d1, d2.
  - destruct (Hfull1 E) as (u & Hu & Hne & Hm).
    destruct (get_run w1 request l d1 (fill query m0) fields Hinst1 Hl1) as
      (w2 & d2 & Hget2 & _ & _ & Hl2 & Hframe2 & _ & Hfull2).
    { right. by exists u. }
    rewrite Hq, fill_twice in Hfull2.
    destruct (Hfull2 E) as (u2 & Hu2 & _ & Hm2).
    exists w1, w2. split; [done|]. split; [done|]. split.
    + unfold unihan_entry. by rewrite Hl1, Hl2, Hu, Hu2, Hm, Hm2.
    + by exists d1, d2.
Qed.

Lemma get_twice_witness :
  ∃ w1 w2,
    datasets_unihan.get "good" (VDict example.response) (field_filter (Some ["kDefinition"]))
      example.installed_world = (Ok (VDict example.response), w1)
    ∧ datasets_unihan.get "good" (VDict example.response)
        (field_filter (Some ["kDefinition"])) w1 = (Ok (VDict example.response), w2)
    ∧ unihan_entry w2 example.response = unihan_entry w1 example.response
    ∧ ∃ d1 d2, heap w1 !! example.response = Some d1
               ∧ heap w2 !! example.response = Some d2
               ∧ ∀ k, k ≠ VStr "unihan" → d2 !! k = d1 !! k.
Proof.
  apply (get_twice example.installed_world "good" example.response ∅ ∅
           (Some ["kDefinition"])).
  - apply installed_example.
  - vm_compute. reflexivity.
  - left. split; vm_compute; reflexivity.
Defined.
